(** * Clinical decision support system: display helpers and pipeline contracts

    A shallow embedding of the React front end of the clinical decision
    support system (the home-page upload component, the patient, doctor and
    receptionist portals) together with models of the back-end contracts the
    front end consumes.

    Layout of the development:
    - [Js]            JavaScript values, strict equality, truthiness, the
                      string and number builtins the source calls;
    - [Labels]        the per-disease label helpers (same text in every file);
    - [ResultGrid]    the disease prediction grid of an upload result;
    - [Api]           the shapes of the history endpoint;
    - [Home]          the upload component of the home page;
    - [Patient], [Doctor], [Receptionist]   the three portals;
    - [JsText]        further string builtins ([includes], [split],
                      [replace]);
    - [HistoryViews]  the timeline cards and table rows of a history;
    - [DoctorWorkspace]   the records vault of the doctor portal;
    - [ReceptionistPanels], [HomeHandlers]   the handlers of the two upload
                      screens and the metadata panels of an analysis;
    - [Admin]         the approval queues of the admin portal;
    - [VitalsDisplay] the vitals badges and the core cells of a history
                      record, blood pressure included;
    - [Backend]       contracts of the FastAPI service, which is not part of
                      the front-end tree: every definition there is modelled
                      from the written specification and says so;
    - [Vocabulary], [NumberVocabulary], [PanelVocabulary], [Samples],
      [PanelSamples]  predicates and sample inputs of the statements;
    then the facts, grouped by subject. *)

From Stdlib Require Import ZArith QArith Qabs Floats Ascii String List Lia Bool.
From stdpp Require Import base option list gmap strings.
From Stdlib Require Import Sorted Qpower.

Local Open Scope string_scope.
Local Open Scope Z_scope.

(* ===================================================================== *)
(** * JavaScript values and builtins                                      *)
(* ===================================================================== *)

Module Js.

(** A JavaScript value as it reaches the display helpers: the JSON scalars,
    [undefined] (what optional chaining yields on an absent field) and an
    opaque case for objects and arrays.  Numbers are IEEE-754 binary64, the
    kernel's primitive floats.  Strings hold the UTF-8 text. *)
Inductive Value : Type :=
| Null
| Undefined
| Num (x : float)
| Str (s : string)
| Boolean (b : bool)
| Object.

(** [v === k] for a number literal [k]: no coercion, so only a number can
    be equal, by IEEE equality ([NaN] equals nothing, [-0 === 0]). *)
Definition strict_eq_num (v : Value) (k : float) : bool :=
  match v with
  | Num x => PrimFloat.eqb x k
  | _ => false
  end.

(** [v === lit] for a string literal. *)
Definition strict_eq_str (v : Value) (lit : string) : bool :=
  match v with
  | Str s => String.eqb s lit
  | _ => false
  end.

(** [v === null || v === undefined]. *)
Definition is_nullish (v : Value) : bool :=
  match v with
  | Null | Undefined => true
  | _ => false
  end.

(** [typeof v === "number"] and [typeof v === "string"]. *)
Definition typeof_number (v : Value) : bool :=
  match v with Num _ => true | _ => false end.

Definition typeof_string (v : Value) : bool :=
  match v with Str _ => true | _ => false end.

(** [Number.isNaN] on a number: the only value different from itself. *)
Definition is_nan (x : float) : bool := negb (PrimFloat.eqb x x).

(** ToBoolean, as used by [a || b] and by JSX conditionals. *)
Definition truthy (v : Value) : bool :=
  match v with
  | Null | Undefined => false
  | Num x => negb (PrimFloat.eqb x 0 || is_nan x)
  | Str s => negb (String.eqb s "")
  | Boolean b => b
  | Object => true
  end.

(** [a || b]. *)
Definition or_else (a b : Value) : Value := if truthy a then a else b.

(** ** Strings *)

(** [String.prototype.toLowerCase], on the ASCII letters.  Bytes of a
    multi-byte UTF-8 sequence are left alone; no character outside ASCII
    lower-cases to an ASCII letter or to white space, so every prefix test
    below against an ASCII letter is decided as in JavaScript. *)
Definition lower_ascii (c : ascii) : ascii :=
  let n := N_of_ascii c in
  if ((65 <=? n) && (n <=? 90))%N then ascii_of_N (n + 32) else c.

Fixpoint toLowerCase (s : string) : string :=
  match s with
  | EmptyString => EmptyString
  | String c r => String (lower_ascii c) (toLowerCase r)
  end.

(** [s.startsWith(p)]. *)
Definition startsWith (s p : string) : bool := String.prefix p s.

(** White space for [trim]: the WhiteSpace and LineTerminator code points
    U+0009..U+000D, U+0020, U+00A0, U+1680, U+2000..U+200A, U+2028, U+2029,
    U+202F, U+205F, U+3000 and U+FEFF, by the bytes of their UTF-8
    encodings (one, two or three bytes). *)
Definition ws1 (a : N) : bool :=
  ((9 <=? a) && (a <=? 13) || (a =? 32))%N.

Definition ws2 (a b : N) : bool :=
  ((a =? 194) && (b =? 160))%N.

Definition ws3 (a b c : N) : bool :=
  ((a =? 225) && (b =? 154) && (c =? 128)
   || (a =? 226) && (b =? 128)
      && ((128 <=? c) && (c <=? 138) || (c =? 168) || (c =? 169) || (c =? 175))
   || (a =? 226) && (b =? 129) && (c =? 159)
   || (a =? 227) && (b =? 128) && (c =? 128)
   || (a =? 239) && (b =? 187) && (c =? 191))%N.

(** The number of leading bytes of [l] that encode one white-space code
    point, 0 when [l] does not start with one. *)
Definition ws_prefix_len (l : list N) : nat :=
  match l with
  | a :: t =>
      if ws1 a then 1%nat
      else
        match t with
        | b :: t' =>
            if ws2 a b then 2%nat
            else
              match t' with
              | c :: _ => if ws3 a b c then 3%nat else 0%nat
              | [] => 0%nat
              end
        | [] => 0%nat
        end
  | [] => 0%nat
  end.

Definition bytes_of (s : string) : list N :=
  List.map N_of_ascii (list_ascii_of_string s).

(** Strip leading white space; [fuel] bounds the number of characters. *)
Fixpoint trimStart_fuel (fuel : nat) (s : string) : string :=
  match fuel with
  | O => s
  | S fuel' =>
      match ws_prefix_len (bytes_of s) with
      | O => s
      | n => trimStart_fuel fuel' (String.substring n (String.length s - n)%nat s)
      end
  end.

Definition trimStart (s : string) : string :=
  trimStart_fuel (String.length s) s.

(** The same, read backwards from the end of the text: [rl] is the
    reversed byte list. *)
Definition ws_suffix_len (rl : list N) : nat :=
  match rl with
  | c :: t =>
      if ws1 c then 1%nat
      else
        match t with
        | b :: t' =>
            if ws2 b c then 2%nat
            else
              match t' with
              | a :: _ => if ws3 a b c then 3%nat else 0%nat
              | [] => 0%nat
              end
        | [] => 0%nat
        end
  | [] => 0%nat
  end.

Fixpoint trimEnd_fuel (fuel : nat) (s : string) : string :=
  match fuel with
  | O => s
  | S fuel' =>
      match ws_suffix_len (List.rev (bytes_of s)) with
      | O => s
      | n => trimEnd_fuel fuel' (String.substring 0 (String.length s - n)%nat s)
      end
  end.

Definition trimEnd (s : string) : string :=
  trimEnd_fuel (String.length s) s.

(** [String.prototype.trim]. *)
Definition trim (s : string) : string := trimEnd (trimStart s).

(** ** Numbers *)

(** [Math.round]: the nearest integer, ties towards +infinity; [NaN] and the
    infinities are returned as they are, and a result that is zero keeps the
    sign of the argument.  A finite double is [m * 2^e] with [m] a signed
    integer: for [e >= 0] it is an integer already, otherwise the result is
    [floor ((2 m + 2^-e) / 2^(1-e))], below [2^53] in magnitude. *)
Definition Math_round (x : float) : float :=
  match Prim2SF x with
  | S754_finite s m e =>
      if (0 <=? e)%Z then x
      else
        let k := Z.to_pos (- e) in
        let sm := if s then Z.neg m else Z.pos m in
        let r := Z.div (2 * sm + Z.pow_pos 2 k) (Z.pow_pos 2 (k + 1)) in
        let a := PrimFloat.of_uint63 (Uint63.of_Z (Z.abs r)) in
        if s then PrimFloat.opp a else a
  | _ => x
  end.

(** The doubles [-1] and [1]: sign, mantissa and exponent. *)
Definition sf_minus_one : spec_float := Eval vm_compute in Prim2SF (-1).

Definition sf_one : spec_float := Eval vm_compute in Prim2SF 1.

(** ToNumber, the coercion behind the global [isNaN], [>], [*] and
    [Math.round] when they are handed something that is not a number.  On
    strings and objects it parses numeric-literal text; that parser is taken
    as a parameter [coerce]. *)
Section Coercion.
Variable coerce : Value -> float.

Definition ToNumber (v : Value) : float :=
  match v with
  | Num x => x
  | Boolean true => 1%float
  | Boolean false => 0%float
  | Null => 0%float
  | Undefined => nan
  | Str _ | Object => coerce v
  end.

End Coercion.

(** What a display helper hands to React: a piece of text, or the template
    literal [`${n}%`] of a number [n]. *)
Inductive Rendered : Type :=
| Text (s : string)
| Percent (n : float).

End Js.


(* ===================================================================== *)
(** * Label helpers                                                       *)
(* ===================================================================== *)

(** The four label helpers are declared, with the same text, at the top of
    the upload component and of the patient, doctor and receptionist
    portals. *)
Module Labels.
Import Js.

Definition obesityLabel (p : Value) : string :=
  if strict_eq_num p (-1) then "Insufficient Data"
  else if strict_eq_num p 0 then "Normal weight"
  else if strict_eq_num p 1 then "Obese"
  else if strict_eq_num p 2 then "Overweight"
  else if strict_eq_num p 3 then "Underweight"
  else "Unknown".

Definition liverLabel (p : Value) : string :=
  if strict_eq_num p (-1) then "Insufficient Data"
  else if strict_eq_num p 1 then "Liver Disease Detected"
  else if strict_eq_num p 0 then "No Liver Disease"
  else "Unknown".

Definition hypertensionLabel (p : Value) : string :=
  if strict_eq_num p (-1) then "Insufficient Data"
  else if strict_eq_num p 1 then "High Cardiovascular Risk"
  else if strict_eq_num p 0 then "Low Cardiovascular Risk"
  else "Unknown".

Definition diabetesLabel (p : Value) : string :=
  if strict_eq_num p (-1) then "Insufficient Data"
  else if strict_eq_num p 1 then "Diabetes Detected"
  else if strict_eq_num p 0 then "No Diabetes"
  else "Unknown".

(** The supported diseases, and the helper each one is labelled with. *)
Inductive Disease : Type := obesity | diabetes | hypertension | liver.

Definition label_of (d : Disease) : Value -> string :=
  match d with
  | obesity => obesityLabel
  | diabetes => diabetesLabel
  | hypertension => hypertensionLabel
  | liver => liverLabel
  end.

End Labels.

(* ===================================================================== *)
(** * The disease prediction grid of an upload result                     *)
(* ===================================================================== *)

(** The grid is written twice with the same JSX: in the upload component
    (over [result]) and in the receptionist portal (over [analysisResult]). *)
Module ResultGrid.
Import Js Labels.

(** One entry of [diseases] in the response envelope. *)
Record DiseaseSlot : Type := {
  prediction : Value;
  confidence : Value;
  future_risk : Value
}.

(** [result.diseases]; [None] is a key that is absent (or null). *)
Record Diseases : Type := {
  slot_obesity : option DiseaseSlot;
  slot_diabetes : option DiseaseSlot;
  slot_liver : option DiseaseSlot;
  slot_hypertension : option DiseaseSlot
}.

(** The props of a [DiseaseCard] (the icon apart). *)
Record DiseaseCard : Type := {
  title : string;
  label : string;
  card_confidence : Value;
  card_risk : Value
}.

(** [{slot?.prediction !== -1 && (<DiseaseCard ... label={f(slot.prediction)} />)}]
    On an absent slot the guard reads [undefined !== -1], which holds, and
    the card then reads [slot.prediction] of [undefined]: a TypeError, [None]
    here.  On a present slot the card is rendered unless the prediction is
    the number -1. *)
Definition guarded_card (ttl : string) (f : Value -> string)
    (slot : option DiseaseSlot) : option (list DiseaseCard) :=
  match slot with
  | None => None
  | Some s =>
      if negb (strict_eq_num (prediction s) (-1))
      then Some [ {| title := ttl; label := f (prediction s);
                     card_confidence := confidence s;
                     card_risk := future_risk s |} ]
      else Some []
  end.

(** The children of the grid, in source order. *)
Definition grid (ds : Diseases) : option (list DiseaseCard) :=
  o ← guarded_card "Obesity Screening" obesityLabel (slot_obesity ds);
  d ← guarded_card "Diabetes Analysis" diabetesLabel (slot_diabetes ds);
  l ← guarded_card "Liver Pathology" liverLabel (slot_liver ds);
  h ← guarded_card "Hypertension / Cardio" hypertensionLabel (slot_hypertension ds);
  Some (o ++ d ++ l ++ h)%list.

(** The title the grid gives each disease, and its slot in the envelope. *)
Definition title_of (d : Disease) : string :=
  match d with
  | obesity => "Obesity Screening"
  | diabetes => "Diabetes Analysis"
  | liver => "Liver Pathology"
  | hypertension => "Hypertension / Cardio"
  end.

Definition slot_of (d : Disease) (ds : Diseases) : option DiseaseSlot :=
  match d with
  | obesity => slot_obesity ds
  | diabetes => slot_diabetes ds
  | liver => slot_liver ds
  | hypertension => slot_hypertension ds
  end.

(** The card the grid draws for disease [d] out of slot [s]. *)
Definition card_of (d : Disease) (s : DiseaseSlot) : DiseaseCard :=
  {| title := title_of d; label := label_of d (prediction s);
     card_confidence := confidence s; card_risk := future_risk s |}.

(** The cards of one guarded entry. *)
Definition shown (d : Disease) (s : DiseaseSlot) : list DiseaseCard :=
  if strict_eq_num (prediction s) (-1) then [] else [card_of d s].

(** An envelope whose obesity slot is insufficient and whose other slots
    are scored, and one with nothing scored. *)
Definition insufficient_slot : DiseaseSlot :=
  {| prediction := Num (-1); confidence := Null; future_risk := Null |}.

Definition scored_slot (p : float) : DiseaseSlot :=
  {| prediction := Num p; confidence := Num 0.75; future_risk := Num 0.25 |}.

Definition partial_result : Diseases :=
  {| slot_obesity := Some insufficient_slot;
     slot_diabetes := Some (scored_slot 1);
     slot_liver := Some (scored_slot 0);
     slot_hypertension := Some (scored_slot 1) |}.

Definition empty_result : Diseases :=
  {| slot_obesity := Some insufficient_slot;
     slot_diabetes := Some insufficient_slot;
     slot_liver := Some insufficient_slot;
     slot_hypertension := Some insufficient_slot |}.

End ResultGrid.

(* ===================================================================== *)
(** * Shapes of the history endpoint                                      *)
(* ===================================================================== *)

(** The patient and the doctor portal keep the same pagination object in
    their state and read the same fields of [res.data]. *)
Module Api.

Record Pagination : Type := {
  page : Z;
  limit : Z;
  total_pages : Z;
  total_records : Z;
  has_next : bool;
  has_prev : bool
}.

(** [useState({ page: 1, limit: 10, total_pages: 1, ... })]. *)
Definition initial_pagination : Pagination :=
  {| page := 1; limit := 10; total_pages := 1; total_records := 0;
     has_next := false; has_prev := false |}.

(** [res.data] of a history request over prescriptions of type [Rx];
    [data] is [None] when the field is missing or null. *)
Record HistoryResponse (Rx : Type) : Type := {
  data : option (list Rx);
  resp_page : Z;
  resp_limit : Z;
  resp_total_pages : Z;
  resp_total_records : Z;
  resp_has_next : bool;
  resp_has_prev : bool
}.

Arguments data {Rx} _.
Arguments resp_page {Rx} _.
Arguments resp_limit {Rx} _.
Arguments resp_total_pages {Rx} _.
Arguments resp_total_records {Rx} _.
Arguments resp_has_next {Rx} _.
Arguments resp_has_prev {Rx} _.

(** The object literal both portals pass to [setPagination]. *)
Definition pagination_of {Rx : Type} (r : HistoryResponse Rx) : Pagination :=
  {| page := resp_page r; limit := resp_limit r;
     total_pages := resp_total_pages r;
     total_records := resp_total_records r;
     has_next := resp_has_next r; has_prev := resp_has_prev r |}.

End Api.

(* ===================================================================== *)
(** * Upload component of the home page                                   *)
(* ===================================================================== *)

Module Home.

Section Upload.
Variable Envelope : Type.

(** [error] and [result] start as [null]. *)
Record State : Type := {
  file_selected : bool;
  loading : bool;
  error : option string;
  result : option Envelope
}.

Definition failure_message : string :=
  "Failed to analyze prescription. Ensure server is active on port 8000.".

(** [upload]: the state once the handler has run to its end; [None] is a
    request that failed, whatever the failure. *)
Definition upload (st : State) (res : option Envelope) : State :=
  if negb (file_selected st) then st
  else
    match res with
    | Some body =>
        {| file_selected := true; loading := false;
           error := None; result := Some body |}
    | None =>
        {| file_selected := true; loading := false;
           error := Some failure_message; result := None |}
    end.

End Upload.

End Home.

(* ===================================================================== *)
(** * Patient portal                                                      *)
(* ===================================================================== *)

Module Patient.
Import Js Api.

Definition formatGender (g : Value) : string :=
  if strict_eq_num g 0 || strict_eq_str g "0" then "Male"
  else if strict_eq_num g 1 || strict_eq_str g "1" then "Female"
  else
    match g with
    | Str s =>
        let v := trim (toLowerCase s) in
        if startsWith v "m" then "Male"
        else if startsWith v "f" then "Female"
        else "N/A"
    | _ => "N/A"
    end.

Definition safeText (v : Value) : Value :=
  if is_nullish v || strict_eq_num v (-1) then Str "No data" else v.

Definition safePercent (v : Value) : Rendered :=
  if is_nullish v then Text "No data"
  else
    match v with
    | Num x =>
        if is_nan x then Text "No data"
        else if PrimFloat.ltb 1 x then Percent (Math_round x)
        else Percent (Math_round (x * 100))
    | _ => Text "No data"
    end.

(** [VitalBadge]: the value paragraph shows [safeText(value)]. *)
Definition VitalBadge (value : Value) : Value := safeText value.

(** A result cell of the history table,
    [safeText(obesityLabel(map.obesity?.result))] and its three siblings. *)
Definition result_cell (d : Labels.Disease) (result : Value) : Value :=
  safeText (Str (Labels.label_of d result)).

Section History.
Variable Rx : Type.

Record HistoryState : Type := {
  history : list Rx;
  pagination : Pagination;
  loading : bool
}.

(** [fetchHistory]: [None] is a request that failed, in which case the
    history is emptied and the pagination left as it was. *)
Definition fetchHistory (st : HistoryState)
    (res : option (HistoryResponse Rx)) : HistoryState :=
  match res with
  | Some r =>
      {| history := default [] (data r);
         pagination := pagination_of r;
         loading := false |}
  | None =>
      {| history := []; pagination := pagination st; loading := false |}
  end.

End History.

End Patient.

(* ===================================================================== *)
(** * Doctor portal                                                       *)
(* ===================================================================== *)

Module Doctor.
Import Js Api.

Definition formatGender (g : Value) : string :=
  if is_nullish g then "N/A"
  else if strict_eq_str g "0" then "Male"
  else if strict_eq_str g "1" then "Female"
  else if typeof_number g && strict_eq_num g 0 then "Male"
  else if typeof_number g && strict_eq_num g 1 then "Female"
  else
    match g with
    | Str s =>
        let v := trim (toLowerCase s) in
        if startsWith v "m" then "Male"
        else if startsWith v "f" then "Female"
        else "Other"
    | _ => "Other"
    end.

(** The placeholder is an em dash (U+2014). *)
Definition dash : string := "—".

Definition safeText (v : Value) : Value :=
  if is_nullish v || strict_eq_num v (-1) then Str dash else v.

Section Coerced.
Variable coerce : Value -> float.

(** The global [isNaN], the comparison, the product and [Math.round] all
    coerce their operand with ToNumber. *)
Definition safePercent (v : Value) : Rendered :=
  let n := ToNumber coerce v in
  if is_nullish v || is_nan n then Text dash
  else if PrimFloat.ltb 1 n then Percent (Math_round n)
  else Percent (Math_round (n * 100)).

End Coerced.

Definition VitalBadge (value : Value) : Value := safeText value.

(** A result cell of the history table, as in the patient portal. *)
Definition result_cell (d : Labels.Disease) (result : Value) : Value :=
  safeText (Str (Labels.label_of d result)).

Section History.
Variable Rx : Type.

(** [history] is [None] when it was set to an [undefined] [res.data.data]. *)
Record HistoryState : Type := {
  searchId : string;
  searched : bool;
  history : option (list Rx);
  pagination : Pagination;
  loading : bool
}.

(** [fetchPatientHistory]; an empty search box returns at once, a failed
    request ([None]) empties the history. *)
Definition fetchPatientHistory (st : HistoryState)
    (res : option (HistoryResponse Rx)) : HistoryState :=
  if String.eqb (searchId st) "" then st
  else
    match res with
    | Some r =>
        {| searchId := searchId st; searched := true;
           history := data r;
           pagination := pagination_of r;
           loading := false |}
    | None =>
        {| searchId := searchId st; searched := true;
           history := Some [];
           pagination := pagination st;
           loading := false |}
    end.

End History.

End Doctor.

(* ===================================================================== *)
(** * Receptionist portal                                                 *)
(* ===================================================================== *)

Module Receptionist.
Import Js.

Definition formatGender (g : Value) : Value :=
  if is_nullish g then Str "N/A"
  else
    match g with
    | Str s =>
        if startsWith (toLowerCase s) "m" then Str "Male"
        else if startsWith (toLowerCase s) "f" then Str "Female"
        else g
    | _ =>
        if strict_eq_num g 0 then Str "Male"
        else if strict_eq_num g 1 then Str "Female"
        else Str "Other"
    end.

Section Analysis.
(** The body of a successful response, the envelope. *)
Variable Envelope : Type.

(** [err.response]: the status and [data?.detail] of an error response. *)
Record ErrorResponse : Type := {
  status : Z;
  detail : Value
}.

(** How [axios.post] ends: resolved with [res.data], rejected with an error
    whose [response] is the server's answer, or rejected without one (the
    server was not reached). *)
Inductive Outcome : Type :=
| Resolved (body : Envelope)
| Rejected (response : option ErrorResponse).

Record State : Type := {
  file_selected : bool;
  loading : bool;
  error : Value;
  analysisResult : option Envelope
}.

Definition duplicate_message : string :=
  "⚠️ This prescription has already been uploaded.".

(** The message the [catch] block passes to [setError]. *)
Definition error_message (r : option ErrorResponse) : Value :=
  match r with
  | Some e =>
      if (status e =? 409)%Z then Str duplicate_message
      else if (status e =? 400)%Z
      then or_else (detail e) (Str "Invalid prescription document.")
      else if (status e =? 401)%Z then Str "Session expired. Please login again."
      else or_else (detail e) (Str "Server error occurred.")
  | None => Str "Server not reachable. Please try again."
  end.

(** [handleRunAnalysis]: the state once the handler has run to its end.
    Without a file it returns before touching anything.  Otherwise the
    error and the previous result are cleared before the request is sent,
    and only a resolved request stores a result. *)
Definition handleRunAnalysis (st : State) (o : Outcome) : State :=
  if negb (file_selected st) then st
  else
    match o with
    | Resolved body =>
        {| file_selected := true; loading := false;
           error := Str ""; analysisResult := Some body |}
    | Rejected r =>
        {| file_selected := true; loading := false;
           error := error_message r; analysisResult := None |}
    end.

End Analysis.

End Receptionist.

(* ===================================================================== *)
(** * More string builtins                                                *)
(* ===================================================================== *)

(** [includes], [split] and the global replacement of underscores, on the
    UTF-8 text.  The patterns and separators the source passes are ASCII,
    and an ASCII byte never occurs inside a multi-byte sequence, so the
    byte-wise search finds what the search by code unit finds. *)
Module JsText.

(** [s.includes(sub)]. *)
Fixpoint includes (s sub : string) : bool :=
  String.prefix sub s
  || match s with
     | EmptyString => false
     | String _ r => includes r sub
     end.

(** [s.split(sep)] for a one-character separator: the pieces between the
    separators, one more than there are separators. *)
Fixpoint split (sep : ascii) (s : string) : list string :=
  match s with
  | EmptyString => [EmptyString]
  | String c r =>
      if Ascii.eqb c sep then EmptyString :: split sep r
      else
        match split sep r with
        | h :: t => String c h :: t
        | [] => [String c EmptyString]
        end
  end.

(** [k.replace(/_/g, " ")]. *)
Fixpoint underscores_to_spaces (k : string) : string :=
  match k with
  | EmptyString => EmptyString
  | String c r =>
      String (if Ascii.eqb c "_" then " "%char else c) (underscores_to_spaces r)
  end.

(** The characters of a text. *)
Fixpoint chars (s : string) : list ascii :=
  match s with
  | EmptyString => []
  | String c r => c :: chars r
  end.

(** How often a character occurs in a text. *)
Definition count_char (sep : ascii) (s : string) : nat :=
  length (List.filter (Ascii.eqb sep) (chars s)).

(** A text of ASCII characters only. *)
Definition ascii_text (s : string) : Prop :=
  List.Forall (fun c => (N_of_ascii c < 128)%N) (chars s).

End JsText.

(* ===================================================================== *)
(** * History views of the patient and doctor portals                     *)
(* ===================================================================== *)

(** [TimelineView] and [TableView] are written twice with the same text, in
    the patient portal and in the doctor portal; the two differ in the
    [safeText] and [safePercent] they call. *)
Module HistoryViews.
Import Js JsText Labels.

(** One entry of [rx.predictions]. *)
Record Prediction : Type := {
  disease : string;
  result : Value;
  confidence : Value;
  risk : Value;
  features_json : Value
}.

(** The key under which the history names each disease. *)
Definition key_of (d : Disease) : string :=
  match d with
  | obesity => "obesity"
  | diabetes => "diabetes"
  | hypertension => "hypertension"
  | liver => "liver"
  end.

(** [Array.isArray(rx.predictions) ? rx.predictions : []]; [None] is
    anything that is not an array. *)
Definition validPredictions (predictions : option (list Prediction))
    : list Prediction :=
  default [] predictions.

Section Views.
(** The [safeText] and [safePercent] of the portal, and ToNumber on what is
    not a number. *)
Variable safeText : Value -> Value.
Variable safePercent : Value -> Rendered.
Variable coerce : Value -> float.

(** ** Timeline *)

(** [let label = "Unknown"] and the four assignments that follow it. *)
Definition card_label (p : Prediction) : string :=
  let l0 := "Unknown" in
  let l1 := if String.eqb (disease p) "obesity" then obesityLabel (result p) else l0 in
  let l2 := if String.eqb (disease p) "diabetes" then diabetesLabel (result p) else l1 in
  let l3 :=
    if String.eqb (disease p) "hypertension" then hypertensionLabel (result p) else l2 in
  if String.eqb (disease p) "liver" then liverLabel (result p) else l3.

(** [const isAlarming = p.result >= 1], which turns the card red. *)
Definition isAlarming (p : Prediction) : bool :=
  PrimFloat.leb 1 (ToNumber coerce (result p)).

(** One prediction card of the timeline. *)
Record TimelineCard : Type := {
  tc_disease : string;
  tc_label : string;
  tc_confidence : Rendered;
  tc_risk : Rendered;
  tc_alarming : bool
}.

Definition timeline_card (p : Prediction) : TimelineCard :=
  {| tc_disease := disease p;
     tc_label := card_label p;
     tc_confidence := safePercent (confidence p);
     tc_risk := safePercent (risk p);
     tc_alarming := isAlarming p |}.

(** The predictions block of one prescription: the notice "No AI
    predictions available for this visit." ([None]) or the cards. *)
Definition timeline_predictions (predictions : option (list Prediction))
    : option (list TimelineCard) :=
  match validPredictions predictions with
  | [] => None
  | ps => Some (List.map timeline_card ps)
  end.

(** ** Table *)

(** [const map = {}] filled by [forEach(p => { map[p.disease] = p })].  The
    row reads the four disease keys only; a prediction named ["__proto__"]
    is stored by no own key in JavaScript and is read by none here. *)
Definition disease_map (predictions : option (list Prediction))
    : gmap string Prediction :=
  fold_left (fun m p => <[disease p := p]> m) (validPredictions predictions) ∅.

(** [map.<d>?.<field>]: [undefined] when the disease has no entry. *)
Definition map_field (m : gmap string Prediction) (d : Disease)
    (field : Prediction -> Value) : Value :=
  match m !! key_of d with
  | Some p => field p
  | None => Undefined
  end.

(** The three cells of a disease in a table row: result, risk, factors.
    The factors cell holds the "View Factors" button ([true]) when
    [features_json] is truthy and the text "No data" otherwise. *)
Record DiseaseCells : Type := {
  cell_result : Value;
  cell_risk : Rendered;
  cell_has_factors : bool
}.

Definition disease_cells (m : gmap string Prediction) (d : Disease)
    : DiseaseCells :=
  {| cell_result := safeText (Str (label_of d (map_field m d result)));
     cell_risk := safePercent (map_field m d risk);
     cell_has_factors := truthy (map_field m d features_json) |}.

End Views.

(** The labels that report nothing wrong or nothing known, and the labels
    that report a finding. *)
Definition calm_label (l : string) : Prop :=
  In l ["Insufficient Data"; "Normal weight"; "No Diabetes"; "No Liver Disease";
        "Low Cardiovascular Risk"].

Definition finding_label (l : string) : Prop :=
  In l ["Obese"; "Overweight"; "Underweight"; "Diabetes Detected";
        "Liver Disease Detected"; "High Cardiovascular Risk"].

End HistoryViews.

(* ===================================================================== *)
(** * Doctor portal: disease keys and the records vault                   *)
(* ===================================================================== *)

Module DoctorWorkspace.
Import Js JsText Api.

(** [normalizeDiseaseKey].  A falsy argument gives the empty text; any other
    argument is lower-cased, which throws ([None]) on what is not a
    string. *)
Definition classify_key (v : string) : string :=
  if includes v "obes" then "obesity"
  else if includes v "liver" then "liver"
  else if includes v "hyper" then "hypertension"
  else if includes v "diab" then "diabetes"
  else v.

Definition normalizeDiseaseKey (d : Value) : option string :=
  if negb (truthy d) then Some ""
  else
    match d with
    | Str s => Some (classify_key (toLowerCase s))
    | _ => None
    end.

(** [viewMode]. *)
Inductive ViewMode : Type := table | timeline.

(** [view] and [activeTab]. *)
Inductive View : Type := login | register | workspace.

Inductive Tab : Type := dashboard | profile.

(** How [handleLogin] ends: the credentials were refused; they were accepted
    but the profile could not be fetched; or the physician is in. *)
Inductive LoginOutcome : Type := Refused | ProfileFailed | LoggedIn.

Section Vault.
Variable Rx : Type.

(** The part of the portal's state that decides what is drawn. *)
Record State : Type := {
  view : View;
  activeTab : Tab;
  hist : Doctor.HistoryState Rx;
  viewMode : ViewMode;
  selectedRx : option Rx
}.

Definition set_hist (st : State) (h : Doctor.HistoryState Rx) : State :=
  {| view := view st; activeTab := activeTab st; hist := h;
     viewMode := viewMode st; selectedRx := selectedRx st |}.

Definition set_view (st : State) (v : View) : State :=
  {| view := v; activeTab := activeTab st; hist := hist st;
     viewMode := viewMode st; selectedRx := selectedRx st |}.

Definition set_loading (st : State) (b : bool) : State :=
  let h := hist st in
  set_hist st {| Doctor.searchId := Doctor.searchId _ h;
                 Doctor.searched := Doctor.searched _ h;
                 Doctor.history := Doctor.history _ h;
                 Doctor.pagination := Doctor.pagination _ h;
                 Doctor.loading := b |}.

(** The state the component mounts with: the login form. *)
Definition initial : State :=
  {| view := login; activeTab := dashboard;
     hist := {| Doctor.searchId := ""; Doctor.searched := false;
                Doctor.history := Some []; Doctor.pagination := initial_pagination;
                Doctor.loading := false |};
     viewMode := table; selectedRx := None |}.

(** What can happen to the portal, each handler run to its end: the profile
    request of the mount effect answers; the login or the registration form
    is submitted; the link under the form switches between the two; a tab of
    the side bar is opened; the physician types in the search box, searches
    (with the answer of the request, [None] when it failed), logs out or is
    logged out by the inactivity timer, opens a prescription from its table
    row, goes back from the timeline, presses the Tabular or the Timeline
    toggle. *)
Inductive Event : Type :=
| Profile (ok : bool)
| Login (o : LoginOutcome)
| Register (ok : bool)
| SwitchForm
| OpenTab (t : Tab)
| Edit (v : string)
| Search (res : option (HistoryResponse Rx))
| Logout
| Select (rx : Rx)
| Back
| Tabular
| Timeline.

(** [fetchProfile]: the workspace opens when the profile arrives, the login
    form when it does not. *)
Definition fetchProfile (st : State) (ok : bool) : State :=
  set_view st (if ok then workspace else login).

(** [handleLogin]: a refused login leaves the view alone; otherwise
    [fetchProfile] decides.  The spinner is stopped in every case. *)
Definition handleLogin (st : State) (o : LoginOutcome) : State :=
  set_loading
    match o with
    | Refused => st
    | ProfileFailed => fetchProfile st false
    | LoggedIn => fetchProfile st true
    end
    false.

(** [handleRegister]: back to the login form once the request went
    through. *)
Definition handleRegister (st : State) (ok : bool) : State :=
  set_loading (if ok then set_view st login else st) false.

(** [setView(view === "login" ? "register" : "login")]. *)
Definition switchForm (st : State) : State :=
  set_view st match view st with login => register | _ => login end.

(** The [onChange] of the search box. *)
Definition onSearchChange (st : State) (v : string) : State :=
  let h := hist st in
  if String.eqb (trim v) "" then
    {| view := view st; activeTab := activeTab st;
       hist := {| Doctor.searchId := v; Doctor.searched := false;
                  Doctor.history := Some [];
                  Doctor.pagination := Doctor.pagination _ h;
                  Doctor.loading := Doctor.loading _ h |};
       viewMode := table; selectedRx := None |}
  else
    set_hist st {| Doctor.searchId := v; Doctor.searched := Doctor.searched _ h;
                   Doctor.history := Doctor.history _ h;
                   Doctor.pagination := Doctor.pagination _ h;
                   Doctor.loading := Doctor.loading _ h |}.

(** [forceLogout]: the history is emptied, the selection dropped and the
    login form comes back; the view mode and the tab are left as they
    are. *)
Definition forceLogout (st : State) : State :=
  let h := hist st in
  {| view := login; activeTab := activeTab st;
     hist := {| Doctor.searchId := Doctor.searchId _ h; Doctor.searched := false;
                Doctor.history := Some [];
                Doctor.pagination := Doctor.pagination _ h;
                Doctor.loading := Doctor.loading _ h |};
     viewMode := viewMode st; selectedRx := None |}.

Definition handle (st : State) (e : Event) : State :=
  match e with
  | Profile ok => fetchProfile st ok
  | Login o => handleLogin st o
  | Register ok => handleRegister st ok
  | SwitchForm => switchForm st
  | OpenTab t =>
      {| view := view st; activeTab := t; hist := hist st;
         viewMode := viewMode st; selectedRx := selectedRx st |}
  | Edit v => onSearchChange st v
  | Search res => set_hist st (Doctor.fetchPatientHistory Rx (hist st) res)
  | Logout => forceLogout st
  | Select rx =>
      {| view := view st; activeTab := activeTab st; hist := hist st;
         viewMode := timeline; selectedRx := Some rx |}
  | Back | Tabular =>
      {| view := view st; activeTab := activeTab st; hist := hist st;
         viewMode := table; selectedRx := None |}
  | Timeline =>
      match selectedRx st with
      | Some _ =>
          {| view := view st; activeTab := activeTab st; hist := hist st;
             viewMode := timeline; selectedRx := selectedRx st |}
      | None => st
      end
  end.

Definition run (events : list Event) : State := fold_left handle events initial.





End Vault.

End DoctorWorkspace.

(* ===================================================================== *)
(** * Receptionist portal: the other handlers and the metadata panels     *)
(* ===================================================================== *)

Module ReceptionistPanels.
Import Js JsText Receptionist.

Section Handlers.
Variable Envelope : Type.

(** [handleReset], [handleLogout] and [handleFileChange] on the analysis
    state ([chosen] says whether the input event carries a file). *)
Definition handleReset (st : State Envelope) : State Envelope :=
  {| file_selected := false; loading := loading _ st; error := Str "";
     analysisResult := None |}.

Definition handleLogout (st : State Envelope) : State Envelope :=
  {| file_selected := false; loading := loading _ st; error := error _ st;
     analysisResult := None |}.

Definition handleFileChange (st : State Envelope) (chosen : bool)
    : State Envelope :=
  if chosen then
    {| file_selected := true; loading := loading _ st; error := Str "";
       analysisResult := None |}
  else st.

Inductive Event : Type :=
| Reset
| Logout
| FileChange (chosen : bool)
| Run (o : Outcome Envelope).

Definition handle (st : State Envelope) (e : Event) : State Envelope :=
  match e with
  | Reset => handleReset st
  | Logout => handleLogout st
  | FileChange chosen => handleFileChange st chosen
  | Run o => handleRunAnalysis _ st o
  end.

(** The state the component mounts with. *)
Definition initial : State Envelope :=
  {| file_selected := false; loading := false; error := Str "";
     analysisResult := None |}.



End Handlers.

(** An entry of [FEATURE_META]: a label, a unit (falsy when empty) and a
    display order ([None] when the entry has none). *)
Record Meta : Type := {
  meta_label : string;
  meta_unit : string;
  meta_order : option Z
}.

(** One labelled value of a metadata panel. *)
Record Row : Type := {
  row_label : string;
  row_value : Value;
  row_unit : string
}.

Section Panels.
(** [FEATURE_META] is imported from a module of its own; it is taken as a
    parameter, [None] on a key it does not have. *)
Variable FEATURE_META : string -> option Meta.

(** [meta.unit ? ` ${meta.unit}` : ""]. *)
Definition unit_text (u : string) : string :=
  if String.eqb u "" then "" else " " +:+ u.

Definition vital_keys : list string :=
  ["age"; "gender"; "height_cm"; "weight_kg"; "bmi"].

(** [analysisResult.extracted_data?.[key]]. *)
Definition raw_vital (data : option (gmap string Value)) (key : string) : Value :=
  match data with
  | Some m => default Undefined (m !! key)
  | None => Undefined
  end.

(** The body of the loop over the five vitals: [Some None] is the [null]
    returned for a missing vital, [None] the TypeError of reading
    [meta.label] when [FEATURE_META] has no entry for a vital that is
    present. *)
Definition vital_row (data : option (gmap string Value)) (key : string)
    : option (option Row) :=
  let raw := raw_vital data key in
  if is_nullish raw then Some None
  else
    match FEATURE_META key with
    | None => None
    | Some meta =>
        Some (Some {| row_label := meta_label meta;
                      row_value := if String.eqb key "gender"
                                   then formatGender raw else raw;
                      row_unit := unit_text (meta_unit meta) |})
    end.

Fixpoint vital_rows_of (data : option (gmap string Value)) (keys : list string)
    : option (list Row) :=
  match keys with
  | [] => Some []
  | key :: rest =>
      match vital_row data key, vital_rows_of data rest with
      | Some (Some r), Some rs => Some (r :: rs)
      | Some None, Some rs => Some rs
      | _, _ => None
      end
  end.

Definition vital_rows (data : option (gmap string Value)) : option (list Row) :=
  vital_rows_of data vital_keys.

(** [FEATURE_META[a]?.order ?? 99]. *)
Definition rank (key : string) : Z :=
  match FEATURE_META key with
  | Some meta => default 99 (meta_order meta)
  | None => 99
  end.

(** [Array.prototype.sort] with the comparator
    [(a, b) => rank(a) - rank(b)]: the sort is stable, so the outcome is
    that of inserting each entry before the first later-placed entry of a
    rank that is not smaller. *)
Fixpoint insert_by_rank (x : string * Value) (l : list (string * Value))
    : list (string * Value) :=
  match l with
  | [] => [x]
  | y :: t =>
      if rank (fst x) <=? rank (fst y) then x :: y :: t
      else y :: insert_by_rank x t
  end.

Fixpoint sort_by_rank (l : list (string * Value)) : list (string * Value) :=
  match l with
  | [] => []
  | x :: t => insert_by_rank x (sort_by_rank t)
  end.

(** [FEATURE_META[key] || { label: key }] and the row drawn from it. *)
Definition feature_row (kv : string * Value) : Row :=
  match FEATURE_META (fst kv) with
  | Some meta =>
      {| row_label := meta_label meta; row_value := snd kv;
         row_unit := unit_text (meta_unit meta) |}
  | None => {| row_label := fst kv; row_value := snd kv; row_unit := "" |}
  end.

(** The feature panel of one disease.  [features] is [Object.entries] of
    [result.features_used], [None] when that field is null or missing; a
    disease without features gets no panel. *)
Definition feature_panel (features : option (list (string * Value)))
    : option (list Row) :=
  match features with
  | None | Some [] => None
  | Some fs => Some (List.map feature_row (sort_by_rank fs))
  end.

End Panels.

(** The entity chips.  [ner] is [Object.entries] of [ner_extracted], each
    group with its comma-joined text; [None] is the notice "Awaiting AI
    labeling...", shown when the field is missing or every group is
    empty. *)
Definition group_chips (value : string) : list string :=
  if String.eqb value "" then [] else List.map trim (split ","%char value).

Definition ner_chips (ner : option (list (string * string)))
    : option (list (list string)) :=
  match ner with
  | None => None
  | Some groups =>
      if existsb (fun g => negb (String.eqb (snd g) "")) groups
      then Some (List.map (fun g => group_chips (snd g)) groups)
      else None
  end.

End ReceptionistPanels.

(* ===================================================================== *)
(** * Upload component of the home page: the other handlers               *)
(* ===================================================================== *)

Module HomeHandlers.
Import Home.

Section Handlers.
Variable Envelope : Type.

Definition handleFileChange (st : State Envelope) (chosen : bool)
    : State Envelope :=
  if chosen then
    {| file_selected := true; loading := loading _ st; error := None;
       result := None |}
  else st.

Definition handleReset (st : State Envelope) : State Envelope :=
  {| file_selected := false; loading := loading _ st; error := None;
     result := None |}.

Inductive Event : Type :=
| FileChange (chosen : bool)
| Reset
| Upload (res : option Envelope).

Definition handle (st : State Envelope) (e : Event) : State Envelope :=
  match e with
  | FileChange chosen => handleFileChange st chosen
  | Reset => handleReset st
  | Upload res => upload _ st res
  end.

Definition initial : State Envelope :=
  {| file_selected := false; loading := false; error := None; result := None |}.

End Handlers.

End HomeHandlers.

(* ===================================================================== *)
(** * Admin portal: the approval queues                                   *)
(* ===================================================================== *)

Module Admin.

(** The three kinds of account [handleApproval] is called with. *)
Inductive Role : Type := receptionist | doctor | patient.

Section Queues.
(** User identifiers, compared with [!==]. *)
Context {Id : Type} `{EqDecision Id}.

Record User : Type := {
  id : Id;
  full_name : string;
  username : string
}.

(** [pending], with its keys [receptionists], [doctors] and [patients]. *)
Record Pending : Type := {
  receptionists : list User;
  doctors : list User;
  patients : list User
}.

Variable Stats : Type.

Record State : Type := {
  pending : Pending;
  stats : Stats
}.

(** [prev[type + "s"]]. *)
Definition queue (p : Pending) (r : Role) : list User :=
  match r with
  | receptionist => receptionists p
  | doctor => doctors p
  | patient => patients p
  end.

(** [{ ...prev, [type + "s"]: prev[type + "s"].filter(u => u.id !== userId) }]. *)
Definition remove_user (p : Pending) (r : Role) (userId : Id) : Pending :=
  let q := List.filter (fun u => negb (bool_decide (id u = userId))) (queue p r) in
  match r with
  | receptionist =>
      {| receptionists := q; doctors := doctors p; patients := patients p |}
  | doctor =>
      {| receptionists := receptionists p; doctors := q; patients := patients p |}
  | patient =>
      {| receptionists := receptionists p; doctors := doctors p; patients := q |}
  end.

(** How the two requests of [handleApproval] end: the approval or rejection
    failed; or it went through and the statistics were fetched again
    ([None] when that second request failed). *)
Inductive ApprovalOutcome : Type :=
| PostFailed
| PostOk (refreshed : option Stats).

(** [handleApproval]: the user leaves the queue once the first request has
    gone through, whether the account was approved or rejected. *)
Definition handleApproval (st : State) (userId : Id) (r : Role) (approve : bool)
    (o : ApprovalOutcome) : State :=
  match o with
  | PostFailed => st
  | PostOk refreshed =>
      {| pending := remove_user (pending st) r userId;
         stats := default (stats st) refreshed |}
  end.

End Queues.

End Admin.

(* ===================================================================== *)
(** * Vitals of a history record                                          *)
(* ===================================================================== *)

Module VitalsDisplay.
Import Js.

(** [rx.vitals?.bp]. *)
Record BloodPressure : Type := {
  systolic : Value;
  diastolic : Value
}.

(** The fields of a history record that the vitals row of a timeline card
    and the core cells of a table row read.  A field of an absent [patient]
    or [vitals] is [Undefined]; [bp] is [None] when [vitals] or its [bp] is
    absent. *)
Record Visit : Type := {
  patient_id : Value;
  name : Value;
  phone : Value;
  age : Value;
  gender : Value;
  height_cm : Value;
  weight_kg : Value;
  bmi : Value;
  bp : option BloodPressure
}.

(** What a cell or a badge hands to React: a value, or the template literal
    [`${systolic}/${diastolic}`] of two values. *)
Inductive Shown : Type :=
| Plain (v : Value)
| Reading (sys dia : Value).

Section Portal.
Variable safeText : Value -> Value.
Variable formatGender : Value -> string.

(** [rx.vitals?.bp?.systolic ? `${rx.vitals.bp.systolic}/${rx.vitals.bp.diastolic}` : placeholder]. *)
Definition bp_text (placeholder : string) (v : Visit) : Shown :=
  match bp v with
  | Some b =>
      if truthy (systolic b) then Reading (systolic b) (diastolic b)
      else Plain (Str placeholder)
  | None => Plain (Str placeholder)
  end.

(** [VitalBadge]: the paragraph shows [safeText(value)].  A template
    literal is a text, which [===] never finds equal to [null], [undefined]
    or [-1], so [safeText] returns it as it is. *)
Definition badge (value : Shown) : Shown :=
  match value with
  | Plain v => Plain (safeText v)
  | Reading _ _ => value
  end.

(** The eight badges of a timeline card. *)
Definition vitals_badges (v : Visit) : list Shown :=
  [ badge (Plain (patient_id v)); badge (Plain (name v)); badge (Plain (age v));
    badge (Plain (Str (formatGender (gender v))));
    badge (Plain (height_cm v)); badge (Plain (weight_kg v));
    badge (Plain (bmi v)); badge (bp_text "—" v) ].

(** The cells of a table row between the serial and the disease columns:
    patient id, name, phone, age, gender, BMI, blood pressure. *)
Definition core_cells (v : Visit) : list Shown :=
  [ Plain (safeText (patient_id v)); Plain (safeText (name v));
    Plain (safeText (phone v)); Plain (safeText (age v));
    Plain (Str (formatGender (gender v))); Plain (safeText (bmi v));
    bp_text "No data" v ].

End Portal.

(** A visit whose diastolic reading is the sentinel. *)
Definition sentinel_visit : Visit :=
  {| patient_id := Str "P-7"; name := Str "A. Patient"; phone := Str "0170";
     age := Num 41; gender := Num 1; height_cm := Num 170; weight_kg := Num 70;
     bmi := Num (-1);
     bp := Some {| systolic := Num 120; diastolic := Num (-1) |} |}.

End VitalsDisplay.

(* ===================================================================== *)
(** * Back-end contracts                                                  *)
(* ===================================================================== *)

(** The FastAPI service (feature extractor, prediction orchestrator,
    persistence and history endpoints) is outside the front-end tree.  Each
    definition of this module is modelled from the specification. *)
Module Backend.

(** ** Feature extractor: derived BMI *)
Module Extractor.

(** Modelled from the spec: the extractor's rounding "to one decimal place"
    (the extractor itself is missing).  Nearest tenth, a tie going to the
    even tenth as Python's [round] does; [q] is first brought to tenths. *)
Definition round_half_even (q : Q) : Z :=
  let n := Qnum q in
  let d := Z.pos (Qden q) in
  let f := n / d in
  let r2 := 2 * (n - f * d) in
  if r2 <? d then f
  else if d <? r2 then f + 1
  else if Z.even f then f else f + 1.

(** Modelled from the spec: "rounds to one decimal place", the number of
    tenths nearest to [q]. *)
Definition round1 (q : Q) : Q := round_half_even (q * 10) # 10.

(** Modelled from the spec: the BMI rule of the feature extractor (missing):
    "bmi is computed when both height and weight are present and bmi itself
    was not already extracted directly", as
    [weight_kg / (height_cm/100)^2] rounded to one decimal place.  [None]
    is a null field. *)
Definition derive_bmi (height_cm weight_kg bmi : option Q) : option Q :=
  match bmi with
  | Some b => Some b
  | None =>
      match height_cm, weight_kg with
      | Some h, Some w => Some (round1 (w / ((h / 100) * (h / 100))))
      | _, _ => None
      end
  end.

(** Modelled from the spec: the gender categories of the extracted
    record. *)
Inductive Gender : Type := male | female | other | unknown.

(** Modelled from the spec: the normalization rule in the spec's words (the
    extractor is missing): numeric code 0 is male and 1 female; text whose
    lower-case form starts with "m" is male, with "f" female; any other
    present value is other; an absent value is unknown. *)
Definition normalize_gender (g : Js.Value) : Gender :=
  match g with
  | Js.Null | Js.Undefined => unknown
  | Js.Num x =>
      if PrimFloat.eqb x 0 then male
      else if PrimFloat.eqb x 1 then female
      else other
  | Js.Str s =>
      if Js.startsWith (Js.toLowerCase s) "m" then male
      else if Js.startsWith (Js.toLowerCase s) "f" then female
      else other
  | _ => other
  end.

End Extractor.

(** ** Disease prediction orchestrator *)
Module Orchestrator.
Import Labels.

Section Orchestrator.
(** Feature values and scores. *)
Variable Num : Type.

(** Modelled from the spec: the extracted record as the orchestrator reads
    it, feature name to value, a null feature being an absent key. *)
Abbreviation ClinicalRecord := (gmap string Num).

(** Modelled from the spec: the prediction envelope of one disease
    ([DiseasePrediction], spec 3). *)
Record Envelope : Type := {
  prediction : Z;
  confidence : option Num;
  future_risk : option Num;
  features_used : gmap string Num
}.

(** Modelled from the spec: what a scoring provider returns, "a
    categorical prediction, a confidence score, and a future-risk score". *)
Record Score : Type := {
  category : Z;
  raw_confidence : Num;
  raw_future_risk : Num
}.

(** The static feature-requirement list of each disease, the scoring
    provider of each disease ([None] when it is unavailable) and the
    normalization of a score to a probability: constants and collaborators
    of the service, taken as parameters. *)
Variable required : Disease -> list string.
Variable provider : Disease -> list (string * Num) -> option Score.
Variable normalize : Num -> Num.

(** Modelled from the spec: step 2 of the orchestrator's algorithm, the
    envelope emitted on insufficient data. *)
Definition insufficient : Envelope :=
  {| prediction := -1; confidence := None; future_risk := None;
     features_used := ∅ |}.

(** Modelled from the spec: step 1, the projection of the record onto a
    feature list; [None] as soon as one feature is null. *)
Fixpoint project (r : ClinicalRecord) (fs : list string)
    : option (list (string * Num)) :=
  match fs with
  | [] => Some []
  | f :: fs' =>
      match r !! f with
      | None => None
      | Some v =>
          match project r fs' with
          | None => None
          | Some vs => Some ((f, v) :: vs)
          end
      end
  end.

(** Modelled from the spec: the orchestrator's algorithm for one disease
    (steps 1 to 4); a provider that is unavailable leaves the disease
    marked -1. *)
Definition predict (d : Disease) (r : ClinicalRecord) : Envelope :=
  match project r (required d) with
  | None => insufficient
  | Some fv =>
      match provider d fv with
      | None => insufficient
      | Some sc =>
          {| prediction := category sc;
             confidence := Some (normalize (raw_confidence sc));
             future_risk := Some (normalize (raw_future_risk sc));
             features_used := list_to_map fv |}
      end
  end.

(** Modelled from the spec: the [diseases] object of the response, one
    envelope per supported disease, each scored on its own. *)
Record Diseases : Type := {
  env_obesity : Envelope;
  env_diabetes : Envelope;
  env_hypertension : Envelope;
  env_liver : Envelope
}.

(** Modelled from the spec: the four diseases scored on one record,
    "independently and order-insensitively". *)
Definition run (r : ClinicalRecord) : Diseases :=
  {| env_obesity := predict obesity r;
     env_diabetes := predict diabetes r;
     env_hypertension := predict hypertension r;
     env_liver := predict liver r |}.

(** Modelled from the spec: the entry of a disease in the [diseases]
    object. *)
Definition envelope_of (d : Disease) (ds : Diseases) : Envelope :=
  match d with
  | obesity => env_obesity ds
  | diabetes => env_diabetes ds
  | hypertension => env_hypertension ds
  | liver => env_liver ds
  end.

End Orchestrator.

Arguments prediction {Num} _.
Arguments confidence {Num} _.
Arguments future_risk {Num} _.
Arguments features_used {Num} _.
Arguments insufficient {Num}.

End Orchestrator.

(** ** Persistence and dedup service *)
Module Dedup.

(** Modelled from the spec: a persisted prescription, reduced to its unique
    key and its owner (the persistence service is missing). *)
Record PrescriptionRecord : Type := {
  prescription_serial : string;
  patient_id : string
}.

(** Modelled from the spec: the table of committed records, newest
    first. *)
Definition Storage : Type := list PrescriptionRecord.

(** Modelled from the spec: the key comparison of the uniqueness
    constraint. *)
Definition has_serial (s : string) (r : PrescriptionRecord) : bool :=
  String.eqb (prescription_serial r) s.

(** Modelled from the spec: the storage layer's constrained insert, the one
    atomic check-and-insert of §4.6: a record whose serial is already
    stored is refused, the table unchanged. *)
Definition insert_unique (r : PrescriptionRecord) (st : Storage)
    : option Storage :=
  if existsb (has_serial (prescription_serial r)) st then None
  else Some (r :: st).

(** Modelled from the spec: the states of one upload (§4.6). *)
Inductive Phase : Type :=
| RECEIVED
| VALIDATED
| SCORED
| COMMITTED
| REJECTED_DUPLICATE
| REJECTED_INVALID.

(** Modelled from the spec: one upload attempt, the serial its document
    carries ([None] when none can be recovered), the patient it resolves to,
    and where it stands. *)
Record Upload : Type := {
  serial : option string;
  patient : string;
  phase : Phase
}.

(** Modelled from the spec: an upload moved to another state. *)
Definition set_phase (u : Upload) (p : Phase) : Upload :=
  {| serial := serial u; patient := patient u; phase := p |}.

(** Modelled from the spec: the three final states. *)
Definition finished (u : Upload) : bool :=
  match phase u with
  | COMMITTED | REJECTED_DUPLICATE | REJECTED_INVALID => true
  | _ => false
  end.

(** Modelled from the spec: one step of one upload against the shared
    table.  Validation rejects a document without a serial before any
    write; scoring does not touch the table; the commit is the constrained
    insert, its refusal translated to the duplicate rejection.  A finished
    upload has no step. *)
Definition advance (st : Storage) (u : Upload) : option (Storage * Upload) :=
  match phase u with
  | RECEIVED =>
      match serial u with
      | Some _ => Some (st, set_phase u VALIDATED)
      | None => Some (st, set_phase u REJECTED_INVALID)
      end
  | VALIDATED => Some (st, set_phase u SCORED)
  | SCORED =>
      match serial u with
      | Some s =>
          match insert_unique
                  {| prescription_serial := s; patient_id := patient u |} st with
          | Some st' => Some (st', set_phase u COMMITTED)
          | None => Some (st, set_phase u REJECTED_DUPLICATE)
          end
      | None => Some (st, set_phase u REJECTED_INVALID)
      end
  | _ => None
  end.

(** Modelled from the spec: the service under concurrent uploads, the
    table and the uploads in flight.  The runs share nothing but the table
    (§5), which each touches in its one commit step. *)
Record System : Type := {
  table : Storage;
  uploads : list Upload
}.

(** Modelled from the spec: upload [i] takes its next step; naming a
    finished or a missing upload changes nothing. *)
Definition step (i : nat) (sys : System) : System :=
  match uploads sys !! i with
  | Some u =>
      match advance (table sys) u with
      | Some (st', u') => {| table := st'; uploads := <[i := u']> (uploads sys) |}
      | None => sys
      end
  | None => sys
  end.

(** Modelled from the spec: parallel runs as interleavings.  A schedule
    names, step after step, which upload moves next; every interleaving of
    the uploads' steps is the run of some schedule. *)
Definition run (schedule : list nat) (sys : System) : System :=
  fold_left (fun s i => step i s) schedule sys.

(** Modelled from the spec: [n] simultaneous attempts for patient [p] that
    all carry serial [s], each just received. *)
Definition attempts (n : nat) (s p : string) : list Upload :=
  replicate n {| serial := Some s; patient := p; phase := RECEIVED |}.

End Dedup.


(** ** Error responses *)
Module Errors.


Section Status.
(** The spec leaves open which 5xx status a failed collaborator yields. *)
Variables ocr_status model_status : Z.


End Status.

End Errors.

(** ** History endpoint *)
Module History.
Import Api.

(** Modelled from the spec: the paginated read over the committed records
    (the endpoint is missing): the page's slice of the records, taken in
    their [created_at]-descending order, the echoed parameters, the number
    of pages and records, and whether a page follows or precedes. *)
Definition paginate {Rx : Type} (records : list Rx) (page limit : Z)
    : HistoryResponse Rx :=
  let total := Z.of_nat (length records) in
  let pages := (total + limit - 1) / limit in
  {| data := Some (take (Z.to_nat limit)
                     (drop (Z.to_nat ((page - 1) * limit)) records));
     resp_page := page;
     resp_limit := limit;
     resp_total_pages := pages;
     resp_total_records := total;
     resp_has_next := page <? pages;
     resp_has_prev := 1 <? page |}.

End History.

End Backend.

(* ===================================================================== *)
(** * Observations on the dedup service                                   *)
(* ===================================================================== *)

(** Counts and views the statements about concurrent uploads are written
    with. *)
Module DedupView.
Import Backend.Dedup.

(** How many elements of a list pass a test. *)
Fixpoint count {A : Type} (f : A -> bool) (l : list A) : nat :=
  match l with
  | [] => 0
  | x :: t => ((if f x then 1 else 0) + count f t)%nat
  end.

(** The number of stored records that carry serial [s]. *)
Definition stored (s : string) (st : Storage) : nat :=
  count (has_serial s) st.

(** Whether an upload carries serial [s]. *)
Definition carries (s : string) (u : Upload) : bool :=
  match serial u with
  | Some s' => String.eqb s' s
  | None => false
  end.

Definition phase_eqb (p q : Phase) : bool :=
  match p, q with
  | RECEIVED, RECEIVED | VALIDATED, VALIDATED | SCORED, SCORED
  | COMMITTED, COMMITTED | REJECTED_DUPLICATE, REJECTED_DUPLICATE
  | REJECTED_INVALID, REJECTED_INVALID => true
  | _, _ => false
  end.

(** The number of uploads carrying [s] that stand in phase [p]. *)
Definition in_phase (s : string) (p : Phase) (us : list Upload) : nat :=
  count (fun u => carries s u && phase_eqb (phase u) p) us.

Definition all_finished (sys : System) : bool :=
  forallb finished (uploads sys).

(** The steps an upload still has before it. *)
Definition steps_left (u : Upload) : nat :=
  match phase u with
  | RECEIVED => 3%nat
  | VALIDATED => 2%nat
  | SCORED => 1%nat
  | _ => 0%nat
  end.

Definition work_left (sys : System) : nat :=
  sum_list (map steps_left (uploads sys)).

(** What a step does to the table and to the phase, case by case. *)
Inductive advance_case (s : string) (st : Storage) (u : Upload)
    : Storage -> Upload -> Prop :=
| adv_quiet (u' : Upload) :
    carries s u' = carries s u ->
    phase u <> COMMITTED -> phase u <> REJECTED_DUPLICATE ->
    phase u <> REJECTED_INVALID ->
    phase u' <> COMMITTED -> phase u' <> REJECTED_DUPLICATE ->
    (phase u' = REJECTED_INVALID -> carries s u' = false) ->
    advance_case s st u st u'
| adv_foreign (u' : Upload) :
    carries s u' = false -> carries s u = false ->
    advance_case s st u st u'
| adv_foreign_commit (r : PrescriptionRecord) (u' : Upload) :
    carries s u' = false -> carries s u = false ->
    has_serial s r = false ->
    advance_case s st u (r :: st) u'
| adv_commit (r : PrescriptionRecord) (u' : Upload) :
    carries s u' = true -> carries s u = true ->
    phase u = SCORED -> phase u' = COMMITTED ->
    has_serial s r = true -> stored s st = 0%nat ->
    advance_case s st u (r :: st) u'
| adv_duplicate (u' : Upload) :
    carries s u' = true -> carries s u = true ->
    phase u = SCORED -> phase u' = REJECTED_DUPLICATE ->
    (0 < stored s st)%nat ->
    advance_case s st u st u'.

(** What holds of serial [s] in every state the service reaches from a
    table with [c0] records of that serial and [n] uploads carrying it: the
    records of [s] are the initial ones and one per committed upload, there
    is at most one, a duplicate rejection was only ever issued against a
    stored record, no upload carrying [s] was rejected as invalid, and the
    uploads carrying [s] are still [n]. *)
Record invariant (s : string) (c0 n : nat) (sys : System) : Prop := {
  inv_stored :
    stored s (table sys) = (c0 + in_phase s COMMITTED (uploads sys))%nat;
  inv_unique : (stored s (table sys) <= 1)%nat;
  inv_duplicate :
    (0 < in_phase s REJECTED_DUPLICATE (uploads sys))%nat ->
    stored s (table sys) = 1%nat;
  inv_valid : in_phase s REJECTED_INVALID (uploads sys) = 0%nat;
  inv_attempts : count (carries s) (uploads sys) = n
}.

End DedupView.


(* ===================================================================== *)
(** * Vocabulary of the statements                                        *)
(* ===================================================================== *)

Module Vocabulary.
Import Js.

(** The values [safeText] replaces: null, undefined and the number -1. *)
Definition no_data (v : Value) : Prop :=
  v = Null \/ v = Undefined \/ v = Num (-1).

(** A byte that is neither white space nor part of a multi-byte sequence:
    a printable ASCII character. *)
Definition plain (x : N) : Prop := (33 <= x < 128)%N.

(** The text a portal shows for a spec category of gender. *)
Definition gender_label (g : Backend.Extractor.Gender) : string :=
  match g with
  | Backend.Extractor.male => "Male"
  | Backend.Extractor.female => "Female"
  | Backend.Extractor.other => "Other"
  | Backend.Extractor.unknown => "N/A"
  end.

End Vocabulary.

Module NumberVocabulary.

(** The rational number a double stands for; none for NaN and the
    infinities. *)
Definition SF2Q (f : spec_float) : option Q :=
  match f with
  | S754_zero _ => Some 0%Q
  | S754_finite s m e =>
      Some (inject_Z (if s then Z.neg m else Z.pos m) * Qpower 2 e)%Q
  | _ => None
  end.

Definition number_value (x : float) : option Q := SF2Q (Prim2SF x).

(** [k] is the integer nearest to [q], the upper one when two are equally
    near. *)
Definition nearest_integer (q : Q) (k : Z) : Prop :=
  (inject_Z k - (1 # 2) <= q /\ q < inject_Z k + (1 # 2))%Q.

(** The double [x] holds the integer [k]. *)
Definition integer_valued (x : float) (k : Z) : Prop :=
  exists q, number_value x = Some q /\ (q == inject_Z k)%Q.

(** [n] is [x] rounded: the double of the integer nearest to a finite [x],
    and [x] itself when [x] is an infinity or NaN. *)
Definition rounded (x n : float) : Prop :=
  match number_value x with
  | Some q => exists k, integer_valued n k /\ nearest_integer q k
  | None => n = x
  end.

End NumberVocabulary.

Module PanelVocabulary.
Import Js ReceptionistPanels DoctorWorkspace.

(** The row the loop over the vitals draws for one that is present. *)
Definition vital_row_of (meta : Meta) (key : string) (raw : Value) : Row :=
  {| row_label := meta_label meta;
     row_value := if String.eqb key "gender" then Receptionist.formatGender raw
                  else raw;
     row_unit := unit_text (meta_unit meta) |}.

(** A vital the extracted data carries: neither null nor undefined. *)
Definition present (data : option (gmap string Value)) (key : string) : bool :=
  negb (is_nullish (raw_vital data key)).

(** The order the comparator of the feature panel asks for. *)
Definition by_rank (FEATURE_META : string -> option Meta)
    (a b : string * Value) : Prop :=
  rank FEATURE_META (fst a) <= rank FEATURE_META (fst b).


End PanelVocabulary.

(* ===================================================================== *)
(** * Sample inputs                                                       *)
(* ===================================================================== *)

Module Samples.
Import Js Labels.

Section Receptionist.
Import Receptionist.


End Receptionist.

Section Orchestrator.
Import Backend.Orchestrator.

(** Requirement lists in the shape the spec sketches, a provider that
    always answers, and a record with age, gender and BMI but neither height
    nor weight. *)
Definition sample_required (d : Disease) : list string :=
  match d with
  | obesity => ["age"; "gender"; "height_cm"; "weight_kg"]
  | diabetes => ["age"; "gender"; "bmi"]
  | hypertension => ["age"; "bp_systolic"; "bp_diastolic"]
  | liver => ["age"; "gender"]
  end.

Definition sample_provider (d : Disease) (fv : list (string * Z))
    : option (Score Z) :=
  Some {| category := 1; raw_confidence := 80; raw_future_risk := 40 |}.

Definition sample_record : gmap string Z :=
  <["age" := 34]> (<["gender" := 1]> (<["bmi" := 27]> ∅)).

End Orchestrator.

Section Dedup.
Import Backend.Dedup DedupView.

(** Three simultaneous uploads of one prescription, their steps
    interleaved. *)
Definition three_uploads : System :=
  {| table := []; uploads := attempts 3 "RX-1001" "P-7" |}.

Definition interleaving : list nat := [0; 1; 2; 2; 1; 0; 1; 2; 0]%nat.

End Dedup.

End Samples.

Module PanelSamples.
Import Js ReceptionistPanels.

(** A table in the shape of [FEATURE_META], two extracted records and the
    features of one disease. *)
Definition sample_meta (key : string) : option Meta :=
  if String.eqb key "age" then
    Some {| meta_label := "Age"; meta_unit := "years"; meta_order := Some 1 |}
  else if String.eqb key "gender" then
    Some {| meta_label := "Gender"; meta_unit := ""; meta_order := Some 2 |}
  else if String.eqb key "bmi" then
    Some {| meta_label := "BMI"; meta_unit := ""; meta_order := None |}
  else None.

Definition sample_vitals : gmap string Value :=
  <["age" := Num 0]> (<["gender" := Str "f"]> (<["bmi" := Null]> ∅)).

Definition sample_vitals_unknown : gmap string Value :=
  <["height_cm" := Num 170]> sample_vitals.

Definition sample_features : list (string * Value) :=
  [("bmi", Num 31); ("glucose", Num 6); ("gender", Num 1); ("age", Num 40)].

End PanelSamples.

(* ===================================================================== *)
(** * Facts about the builtins                                            *)
(* ===================================================================== *)

Section FloatFacts.
Import Js.

Lemma SFcompare_swap (x y : spec_float) :
  SFcompare y x = option_map CompOpp (SFcompare x y).
Proof.
  destruct x as [[]| [] | | [] mx ex], y as [[]| [] | | [] my ey];
    simpl; try reflexivity;
    rewrite (Z.compare_antisym ex ey);
    destruct (ex ?= ey)%Z; simpl; try reflexivity;
    rewrite (Pos.compare_cont_antisym mx my Eq); simpl;
    try reflexivity; rewrite CompOpp_involutive; reflexivity.
Qed.

Lemma SFcompare_refl (x : spec_float) :
  x <> S754_nan -> SFcompare x x = Some Eq.
Proof.
  destruct x as [[]| [] | | [] m e]; simpl; try congruence; intros _;
    rewrite Z.compare_refl, Pos.compare_cont_refl; reflexivity.
Qed.

Lemma SFcompare_some_l (x y : spec_float) (c : comparison) :
  SFcompare x y = Some c -> x <> S754_nan.
Proof. destruct x; simpl; congruence. Qed.

Lemma SFcompare_some_r (x y : spec_float) (c : comparison) :
  SFcompare x y = Some c -> y <> S754_nan.
Proof. destruct x, y; simpl; congruence. Qed.

(** A number that compares with anything is not [NaN]. *)
Lemma leb_not_nan (x y : float) :
  PrimFloat.leb x y = true -> is_nan x = false.
Proof.
  unfold is_nan. rewrite FloatAxioms.leb_spec, FloatAxioms.eqb_spec. unfold SFleb, SFeqb.
  destruct (SFcompare (Prim2SF x) (Prim2SF y)) as [c|] eqn:E; [|discriminate].
  intros _. rewrite (SFcompare_refl _ (SFcompare_some_l _ _ _ E)). reflexivity.
Qed.

Lemma ltb_not_nan_r (x y : float) :
  PrimFloat.ltb x y = true -> is_nan y = false.
Proof.
  unfold is_nan. rewrite FloatAxioms.ltb_spec, FloatAxioms.eqb_spec. unfold SFltb, SFeqb.
  destruct (SFcompare (Prim2SF x) (Prim2SF y)) as [c|] eqn:E; [|discriminate].
  intros _. rewrite (SFcompare_refl _ (SFcompare_some_r _ _ _ E)). reflexivity.
Qed.

(** [x <= y] excludes [y < x]. *)
Lemma leb_not_gt (x y : float) :
  PrimFloat.leb x y = true -> PrimFloat.ltb y x = false.
Proof.
  rewrite FloatAxioms.leb_spec, FloatAxioms.ltb_spec. unfold SFleb, SFltb.
  rewrite (SFcompare_swap (Prim2SF x) (Prim2SF y)).
  destruct (SFcompare (Prim2SF x) (Prim2SF y)) as [[]|]; simpl; congruence.
Qed.

(** Among numbers that are not [NaN], [x <= y] is the failure of [y < x]. *)
Lemma not_gt_leb (x y : float) :
  is_nan x = false -> is_nan y = false ->
  PrimFloat.ltb y x = false -> PrimFloat.leb x y = true.
Proof.
  unfold is_nan. rewrite FloatAxioms.leb_spec, FloatAxioms.ltb_spec, !FloatAxioms.eqb_spec. unfold SFleb, SFltb, SFeqb.
  rewrite (SFcompare_swap (Prim2SF x) (Prim2SF y)).
  destruct (Prim2SF x) as [[]| [] | | [] mx ex], (Prim2SF y) as [[]| [] | | [] my ey];
    simpl; try congruence;
    destruct (ex ?= ey)%Z; simpl; try congruence;
    destruct (Pos.compare_cont Eq mx my); simpl; congruence.
Qed.

(** IEEE equality with a finite number other than zero is identity. *)
Lemma SFeqb_finite (x : spec_float) (s : bool) (m : positive) (e : Z) :
  SFeqb x (S754_finite s m e) = true -> x = S754_finite s m e.
Proof.
  unfold SFeqb.
  destruct x as [[]| [] | | sx mx ex]; cbn [SFcompare]; try discriminate;
    try (destruct s; discriminate).
  destruct sx, s; try discriminate;
    destruct (Z.compare ex e) eqn:Ee; try discriminate;
    apply Z.compare_eq in Ee; subst ex;
    destruct (Pos.compare_cont Eq mx m) eqn:Em; try discriminate;
    apply Pos.compare_eq in Em; subst mx; reflexivity.
Qed.

(** [-1] is the only double that is [===] to [-1], and [1] the only one
    that is [===] to [1]. *)
Lemma eqb_minus_one (x : float) :
  PrimFloat.eqb x (-1) = true <-> x = (-1)%float.
Proof.
  split; [|intros ->; vm_compute; reflexivity].
  rewrite FloatAxioms.eqb_spec. intros H. apply Prim2SF_inj.
  replace (Prim2SF (-1)) with sf_minus_one in * by (vm_compute; reflexivity).
  apply SFeqb_finite, H.
Qed.

Lemma eqb_one (x : float) :
  PrimFloat.eqb x 1 = true <-> x = 1%float.
Proof.
  split; [|intros ->; vm_compute; reflexivity].
  rewrite FloatAxioms.eqb_spec. intros H. apply Prim2SF_inj.
  replace (Prim2SF 1) with sf_one in * by (vm_compute; reflexivity).
  apply SFeqb_finite, H.
Qed.

Lemma strict_eq_minus_one (v : Value) :
  strict_eq_num v (-1) = true <-> v = Num (-1).
Proof.
  destruct v; cbn [strict_eq_num]; try (split; [discriminate | congruence]).
  rewrite eqb_minus_one. split; congruence.
Qed.

Lemma strict_eq_not_minus_one (v : Value) :
  strict_eq_num v (-1) = false <-> v <> Num (-1).
Proof.
  rewrite <- strict_eq_minus_one. destruct (strict_eq_num v (-1)); split; congruence.
Qed.

End FloatFacts.

(* ===================================================================== *)
(** * Rounding                                                            *)
(* ===================================================================== *)

Section RoundFacts.
Import Js NumberVocabulary.

Lemma digits2_size (p : positive) : digits2_pos p = Pos.size p.
Proof. induction p; simpl; congruence. Qed.

Lemma iter_xO_digits (n p : positive) :
  digits2_pos (Pos.iter xO p n) = (digits2_pos p + n)%positive.
Proof.
  revert p. induction n using Pos.peano_ind; intros p.
  - simpl. lia.
  - rewrite Pos.iter_succ. simpl. rewrite IHn. lia.
Qed.

Lemma iter_xO_value (n p : positive) :
  Z.pos (Pos.iter xO p n) = Z.pos p * 2 ^ Z.pos n.
Proof.
  revert p. induction n using Pos.peano_ind; intros p.
  - simpl. lia.
  - rewrite Pos.iter_succ. rewrite Pos2Z.inj_succ, Z.pow_succ_r by lia.
    rewrite Pos2Z.inj_xO, IHn. lia.
Qed.

Lemma size_bound (p : positive) (n : Z) :
  0 <= n -> Z.pos p < 2 ^ n -> Z.pos (Pos.size p) <= n.
Proof.
  intros Hn Hp.
  pose proof (Pos.size_le p) as H.
  assert (H' : 2 ^ Z.pos (Pos.size p) <= 2 * Z.pos p).
  { rewrite <- Pos2Z.inj_pow. change (2 * Z.pos p) with (Z.pos p~0). lia. }
  destruct (Z_le_gt_dec (Z.pos (Pos.size p)) n) as [|Hgt]; [assumption|].
  assert (2 ^ (n + 1) <= 2 ^ Z.pos (Pos.size p)) by (apply Z.pow_le_mono_r; lia).
  rewrite Z.pow_add_r in H0 by lia. lia.
Qed.

Lemma size_value (p : positive) : Z.pos p < 2 ^ Z.pos (Pos.size p).
Proof. rewrite <- Pos2Z.inj_pow. pose proof (Pos.size_gt p). lia. Qed.

(** The double made from a natural number below [2^53] holds that number. *)
Lemma binary_normalize_exact (p : positive) :
  Z.pos p < 2 ^ 53 ->
  exists m e, binary_normalize prec emax (Z.pos p) 0 false = S754_finite false m e /\
              e <= 0 /\ Z.pos m = Z.pos p * 2 ^ (- e).
Proof.
  intros Hp.
  pose proof (size_bound p 53 ltac:(lia) Hp) as Hd.
  rewrite <- digits2_size in Hd.
  unfold binary_normalize, binary_round.
  set (d := digits2_pos p) in *.
  assert (Hf : fexp prec emax (Z.pos d + 0) = Z.pos d - 53).
  { unfold fexp, SpecFloat.emin, prec, emax. lia. }
  rewrite Hf. unfold shl_align.
  assert (Haux : forall mz ez, Z.pos (digits2_pos mz) = 53 -> ez = Z.pos d - 53 ->
            binary_round_aux prec emax false (Z.pos mz) ez loc_Exact
            = S754_finite false mz ez).
  { intros mz ez Hmz Hez. unfold binary_round_aux, shr_fexp.
    cbn [Zdigits2 shr_record_of_loc]. rewrite Hmz.
    assert (Hf2 : fexp prec emax (53 + ez) - ez = 0).
    { unfold fexp, SpecFloat.emin, prec, emax. lia. }
    rewrite Hf2. cbn [shr shr_m loc_of_shr_record round_nearest_even Zdigits2
                      shr_record_of_loc].
    rewrite Hmz, Hf2. cbn [shr shr_m].
    replace (ez <=? emax - prec) with true; [reflexivity|].
    symmetry. apply Z.leb_le. unfold emax, prec. lia. }
  destruct (Z.pos d - 53 - 0) as [|q|q] eqn:Eq.
  - exists p, 0. split; [|split; [lia|simpl; lia]].
    rewrite Haux; [|fold d; lia|lia]. f_equal. 
  - lia.
  - exists (Pos.iter xO p q), (Z.pos d - 53).
    split; [|split; [lia|]].
    + apply Haux; [|reflexivity]. rewrite iter_xO_digits. fold d. lia.
    + rewrite iter_xO_value. f_equal. f_equal. lia.
Qed.

Lemma finite_mantissa (x : float) (s : bool) (m : positive) (e : Z) :
  Prim2SF x = S754_finite s m e -> Z.pos m < 2 ^ 53.
Proof.
  intros H. pose proof (Prim2SF_valid x) as V. rewrite H in V.
  cbn [valid_binary] in V. unfold bounded, canonical_mantissa in V.
  apply andb_true_iff in V. destruct V as [V _]. apply Z.eqb_eq in V.
  rewrite digits2_size in V.
  assert (Hs : Z.pos (Pos.size m) <= 53)
    by (unfold fexp, SpecFloat.emin, prec, emax in V; lia).
  pose proof (size_value m).
  assert (2 ^ Z.pos (Pos.size m) <= 2 ^ 53) by (apply Z.pow_le_mono_r; lia).
  lia.
Qed.

Lemma pow2_scale (e : Z) :
  e <= 0 -> (Qpower 2 e * inject_Z (2 ^ (- e)) == 1)%Q.
Proof.
  intros He. rewrite Zpower_Qpower by lia.
  replace e with (- - e) at 1 by lia. rewrite Qpower_opp.
  change (inject_Z 2) with 2%Q.
  rewrite Qmult_comm. apply Qmult_inv_r.
  apply Qpower_not_0. discriminate.
Qed.

Lemma scaled_integer (a b e : Z) :
  e <= 0 -> a = b * 2 ^ (- e) -> (inject_Z a * Qpower 2 e == inject_Z b)%Q.
Proof.
  intros He ->. rewrite inject_Z_mult, <- Qmult_assoc.
  rewrite (Qmult_comm (inject_Z (2 ^ (- e)))), pow2_scale by assumption.
  apply Qmult_1_r.
Qed.

Lemma half_up_nearest (sm e : Z) :
  e < 0 ->
  nearest_integer (inject_Z sm * Qpower 2 e)
    ((2 * sm + 2 ^ (- e)) / 2 ^ (- e + 1)).
Proof.
  intros He. set (w := 2 ^ (- e)).
  assert (Hw : 0 < w) by (apply Z.pow_pos_nonneg; lia).
  assert (Hd : 2 ^ (- e + 1) = 2 * w) by (unfold w; rewrite Z.pow_add_r by lia; lia).
  rewrite Hd. set (r := (2 * sm + w) / (2 * w)).
  assert (Hr : 2 * w * r <= 2 * sm + w < 2 * w * r + 2 * w).
  { pose proof (Z.div_mod (2 * sm + w) (2 * w) ltac:(lia)) as Hdm.
    pose proof (Z.mod_pos_bound (2 * sm + w) (2 * w) ltac:(lia)) as Hm.
    fold r in Hdm. lia. }
  pose proof (pow2_scale e ltac:(lia)) as HT. fold w in HT.
  assert (HW : (0 < inject_Z w)%Q) by (unfold Qlt, inject_Z; simpl; lia).
  assert (Hq : (inject_Z sm * Qpower 2 e * inject_Z w == inject_Z sm)%Q)
    by (rewrite <- Qmult_assoc, HT; apply Qmult_1_r).
  unfold nearest_integer. split.
  - apply (Qmult_le_r _ _ (inject_Z w) HW). rewrite Hq.
    unfold Qle, Qminus, Qplus, Qopp, Qmult, inject_Z. simpl. lia.
  - apply (Qmult_lt_r _ _ (inject_Z w) HW). rewrite Hq.
    unfold Qlt, Qminus, Qplus, Qopp, Qmult, inject_Z. simpl. lia.
Qed.

Lemma of_uint63_natural (n : Z) :
  0 <= n < 2 ^ 53 ->
  (n = 0 /\ Prim2SF (of_uint63 (Uint63.of_Z n)) = S754_zero false) \/
  (exists m e, Prim2SF (of_uint63 (Uint63.of_Z n)) = S754_finite false m e /\
               e <= 0 /\ Z.pos m = n * 2 ^ (- e)).
Proof.
  intros Hn. rewrite of_uint63_spec, Uint63.of_Z_spec.
  assert (HB : Uint63.wB = 2 ^ 63) by reflexivity.
  rewrite Z.mod_small by (rewrite HB; lia).
  destruct n as [|p|p]; [left; split; reflexivity| |lia].
  right. apply binary_normalize_exact. lia.
Qed.

Lemma near_self (y : Q) (k : Z) : (y == inject_Z k)%Q -> nearest_integer y k.
Proof.
  intros H. unfold nearest_integer. split; rewrite H;
    unfold Qle, Qlt, Qminus, Qplus, Qopp, inject_Z; simpl; lia.
Qed.

(** [Math_round] on a finite double: the result holds an integer, the one
    nearest to the argument, the upper one of two that are equally near. *)
Lemma Math_round_nearest (x : float) (q : Q) :
  number_value x = Some q ->
  exists k, integer_valued (Math_round x) k /\ nearest_integer q k.
Proof.
  unfold number_value at 1, Math_round, integer_valued.
  destruct (Prim2SF x) as [s|s| |s m e] eqn:E; cbn [SF2Q]; try discriminate.
  - intros [= <-]. exists 0. split; [|apply near_self; reflexivity].
    exists 0%Q. unfold number_value. rewrite E. split; reflexivity.
  - intros [= <-]. set (sm := if s then Z.neg m else Z.pos m).
    destruct (0 <=? e) eqn:He.
    + apply Z.leb_le in He. exists (sm * 2 ^ e).
      assert (Hv : (inject_Z sm * Qpower 2 e == inject_Z (sm * 2 ^ e))%Q)
        by (rewrite inject_Z_mult, Zpower_Qpower by lia; reflexivity).
      split; [|apply near_self; exact Hv].
      eexists. unfold number_value. rewrite E. cbn [SF2Q]. split; [reflexivity|].
      exact Hv.
    + apply Z.leb_gt in He.
      change (Z.pow_pos 2 (Z.to_pos (- e))) with (2 ^ Z.pos (Z.to_pos (- e))).
      change (Z.pow_pos 2 (Z.to_pos (- e) + 1)) with (2 ^ Z.pos (Z.to_pos (- e) + 1)).
      rewrite Pos2Z.inj_add, Z2Pos.id by lia.
      set (r := (2 * sm + 2 ^ (- e)) / 2 ^ (- e + 1)).
      exists r. split; [|apply half_up_nearest; exact He].
      pose proof (finite_mantissa x s m e E) as Hm.
      set (w := 2 ^ (- e)).
      assert (Hw : 2 <= w).
      { unfold w. change 2 with (2 ^ 1) at 1. apply Z.pow_le_mono_r; lia. }
      assert (Hd : 2 ^ (- e + 1) = 2 * w)
        by (unfold w; rewrite Z.pow_add_r by lia; lia).
      assert (Hr : 2 * w * r <= 2 * sm + w < 2 * w * r + 2 * w).
      { pose proof (Z.div_mod (2 * sm + w) (2 * w) ltac:(lia)) as Hdm.
        pose proof (Z.mod_pos_bound (2 * sm + w) (2 * w) ltac:(lia)) as Hmb.
        unfold r. fold w. rewrite Hd. lia. }
      assert (Hs : if s then sm < 0 /\ - 2 ^ 53 < sm else 0 < sm /\ sm < 2 ^ 53)
        by (unfold sm; destruct s; lia).
      assert (Hb : Z.abs r < 2 ^ 53 /\ if s then r <= 0 else 0 <= r).
      { destruct s; destruct Hs as [Hs1 Hs2]; split; nia. }
      destruct Hb as [Hb Hsign].
      destruct (of_uint63_natural (Z.abs r) ltac:(lia))
        as [[H0 Hz]|(m' & e' & Hf & He' & Hm')].
      * exists 0%Q. split; [|assert (r = 0) by lia; subst r; rewrite H; reflexivity].
        unfold number_value. destruct s.
        -- rewrite opp_spec, Hz. reflexivity.
        -- rewrite Hz. reflexivity.
      * unfold number_value. destruct s.
        -- rewrite opp_spec, Hf. cbn [SFopp negb SF2Q]. eexists. split; [reflexivity|].
           apply scaled_integer; [exact He'|]. lia.
        -- rewrite Hf. cbn [SF2Q]. eexists. split; [reflexivity|].
           apply scaled_integer; [exact He'|]. lia.
Qed.

Lemma Math_round_not_finite (x : float) :
  number_value x = None -> Math_round x = x.
Proof.
  unfold number_value, Math_round.
  destruct (Prim2SF x); cbn [SF2Q]; try discriminate; reflexivity.
Qed.

Lemma Math_round_rounded (x : float) : rounded x (Math_round x).
Proof.
  unfold rounded. destruct (number_value x) as [q|] eqn:E.
  - exact (Math_round_nearest x q E).
  - exact (Math_round_not_finite x E).
Qed.

End RoundFacts.

(* ===================================================================== *)
(** * Label helpers: the category codes                                   *)
(* ===================================================================== *)

Section LabelFacts.
Import Js Labels.

Lemma label_insufficient_iff (d : Disease) (p : Value) :
  label_of d p = "Insufficient Data" <-> strict_eq_num p (-1) = true.
Proof.
  destruct d; unfold label_of, obesityLabel, diabetesLabel, hypertensionLabel,
    liverLabel;
    destruct (strict_eq_num p (-1)); [tauto| |tauto| |tauto| |tauto|];
    repeat match goal with
           | |- context [if ?b then _ else _] => destruct b
           end; split; discriminate.
Qed.

(** C4. The label helpers realise the fixed category codes: [obesityLabel]
    sends 0, 1, 2, 3 to the normal-weight, obese, overweight and underweight
    labels; [diabetesLabel], [liverLabel] and [hypertensionLabel] send 0 to
    their negative or low-risk label and 1 to their positive or high-risk
    label; and each of the four returns "Insufficient Data" on the code -1
    and on no other value. *)
Theorem label_codes :
  (obesityLabel (Num 0) = "Normal weight" /\ obesityLabel (Num 1) = "Obese" /\
   obesityLabel (Num 2) = "Overweight" /\ obesityLabel (Num 3) = "Underweight") /\
  (diabetesLabel (Num 0) = "No Diabetes" /\
   diabetesLabel (Num 1) = "Diabetes Detected") /\
  (liverLabel (Num 0) = "No Liver Disease" /\
   liverLabel (Num 1) = "Liver Disease Detected") /\
  (hypertensionLabel (Num 0) = "Low Cardiovascular Risk" /\
   hypertensionLabel (Num 1) = "High Cardiovascular Risk") /\
  (forall p : Value,
     (obesityLabel p = "Insufficient Data" <-> p = Num (-1)) /\
     (diabetesLabel p = "Insufficient Data" <-> p = Num (-1)) /\
     (liverLabel p = "Insufficient Data" <-> p = Num (-1)) /\
     (hypertensionLabel p = "Insufficient Data" <-> p = Num (-1))).
Proof.
  repeat split; try (vm_compute; reflexivity);
    try (intros H;
         first [ apply (label_insufficient_iff obesity) in H
               | apply (label_insufficient_iff diabetes) in H
               | apply (label_insufficient_iff liver) in H
               | apply (label_insufficient_iff hypertension) in H ];
         apply strict_eq_minus_one; exact H);
    intros ->; vm_compute; reflexivity.
Qed.

End LabelFacts.

(* ===================================================================== *)
(** * The no-data placeholder and the percentage display                  *)
(* ===================================================================== *)

Section DisplayFacts.
Import Js Vocabulary NumberVocabulary.

Lemma no_data_test (v : Value) :
  is_nullish v || strict_eq_num v (-1) = true <-> no_data v.
Proof.
  unfold no_data. rewrite orb_true_iff, strict_eq_minus_one.
  destruct v; simpl; intuition congruence.
Qed.

Lemma no_data_test_false (v : Value) :
  is_nullish v || strict_eq_num v (-1) = false <-> ~ no_data v.
Proof.
  rewrite <- no_data_test.
  destruct (is_nullish v || strict_eq_num v (-1)); split; congruence.
Qed.

Lemma safeText_keeps_sentinel_out (v : Value) :
  Patient.safeText v <> Num (-1) /\ Doctor.safeText v <> Num (-1).
Proof.
  unfold Patient.safeText, Doctor.safeText.
  destruct (is_nullish v || strict_eq_num v (-1)) eqn:E.
  - split; discriminate.
  - apply no_data_test_false in E.
    assert (Hv : v <> Num (-1)) by (intros ->; apply E; unfold no_data; auto).
    split; exact Hv.
Qed.

(** C10, as the portals implement it.  [safeText] returns the placeholder
    ("No data" in the patient portal, "—" in the doctor portal) exactly on
    null, undefined and the number -1, and returns every other value
    unchanged; so no core cell of a history table row and no vitals badge
    shows the number -1 by itself, and a result cell reads "Insufficient
    Data" for the code -1.  The blood-pressure cell and badge do not hand
    their readings to [safeText]: they show both as they are whenever the
    systolic reading is truthy, and their own placeholder otherwise. *)
Theorem safeText_placeholder (v : Value) (visit : VitalsDisplay.Visit) :
  (no_data v ->
     Patient.safeText v = Str "No data" /\ Doctor.safeText v = Str "—") /\
  (~ no_data v -> Patient.safeText v = v /\ Doctor.safeText v = v) /\
  (forall c,
     In c (VitalsDisplay.core_cells Patient.safeText Patient.formatGender visit
           ++ VitalsDisplay.vitals_badges Patient.safeText Patient.formatGender visit
           ++ VitalsDisplay.core_cells Doctor.safeText Doctor.formatGender visit
           ++ VitalsDisplay.vitals_badges Doctor.safeText Doctor.formatGender visit)%list ->
     c <> VitalsDisplay.Plain (Num (-1))) /\
  (forall (f : Value -> Value) (g : Value -> string) (b : VitalsDisplay.BloodPressure),
     VitalsDisplay.bp visit = Some b ->
     (truthy (VitalsDisplay.systolic b) = true ->
        List.last (VitalsDisplay.core_cells f g visit) (VitalsDisplay.Plain Null)
          = VitalsDisplay.Reading (VitalsDisplay.systolic b) (VitalsDisplay.diastolic b) /\
        List.last (VitalsDisplay.vitals_badges f g visit) (VitalsDisplay.Plain Null)
          = VitalsDisplay.Reading (VitalsDisplay.systolic b) (VitalsDisplay.diastolic b)) /\
     (truthy (VitalsDisplay.systolic b) = false ->
        List.last (VitalsDisplay.core_cells f g visit) (VitalsDisplay.Plain Null)
          = VitalsDisplay.Plain (Str "No data") /\
        List.last (VitalsDisplay.vitals_badges f g visit) (VitalsDisplay.Plain Null)
          = VitalsDisplay.Plain (f (Str "—")))) /\
  (forall d : Labels.Disease,
     Patient.result_cell d (Num (-1)) = Str "Insufficient Data" /\
     Doctor.result_cell d (Num (-1)) = Str "Insufficient Data").
Proof.
  split; [|split; [|split; [|split]]].
  - intros Hn. apply no_data_test in Hn.
    unfold Patient.safeText, Doctor.safeText. rewrite Hn. split; reflexivity.
  - intros Hn. apply no_data_test_false in Hn.
    unfold Patient.safeText, Doctor.safeText. rewrite Hn. split; reflexivity.
  - assert (Hp : forall w, VitalsDisplay.Plain (Patient.safeText w)
                           <> VitalsDisplay.Plain (Num (-1)))
      by (intros w [= H]; exact (proj1 (safeText_keeps_sentinel_out w) H)).
    assert (Hd : forall w, VitalsDisplay.Plain (Doctor.safeText w)
                           <> VitalsDisplay.Plain (Num (-1)))
      by (intros w [= H]; exact (proj2 (safeText_keeps_sentinel_out w) H)).
    assert (Hb : forall (f : Value -> Value) ph,
               (forall w, VitalsDisplay.Plain (f w) <> VitalsDisplay.Plain (Num (-1))) ->
               VitalsDisplay.badge f (VitalsDisplay.bp_text ph visit)
                 <> VitalsDisplay.Plain (Num (-1)) /\
               VitalsDisplay.bp_text ph visit <> VitalsDisplay.Plain (Num (-1))).
    { intros f ph Hf. unfold VitalsDisplay.bp_text.
      destruct (VitalsDisplay.bp visit) as [b|];
        [destruct (truthy (VitalsDisplay.systolic b))|];
        cbn [VitalsDisplay.badge]; split; try discriminate; apply Hf. }
    intros c Hc. rewrite !in_app_iff in Hc.
    unfold VitalsDisplay.core_cells, VitalsDisplay.vitals_badges in Hc.
    cbn [In VitalsDisplay.badge] in Hc.
    destruct (Hb Patient.safeText "—" Hp) as [Hb1 _].
    destruct (Hb Patient.safeText "No data" Hp) as [_ Hb2].
    destruct (Hb Doctor.safeText "—" Hd) as [Hb3 _].
    repeat match goal with
           | H : _ \/ _ |- _ => destruct H as [H|H]
           | H : False |- _ => contradiction
           end; subst c; first [apply Hp|apply Hd|discriminate|assumption].
  - intros f g b Hbp. unfold VitalsDisplay.core_cells, VitalsDisplay.vitals_badges.
    cbn [List.last]. unfold VitalsDisplay.bp_text. rewrite Hbp.
    split; intros ->; cbn [VitalsDisplay.badge]; split; reflexivity.
  - intros []; split; vm_compute; reflexivity.
Qed.

(** C10, as the claim has it, fails: with a systolic reading of 120 and a
    diastolic reading of -1 the blood-pressure cell of the history table and
    the blood-pressure badge interpolate the number -1, in both portals,
    while the BMI of the same visit, also -1, is replaced. *)
Lemma safeText_bp_sentinel_counterexample :
  In (VitalsDisplay.Reading (Num 120) (Num (-1)))
     (VitalsDisplay.core_cells Patient.safeText Patient.formatGender
        VitalsDisplay.sentinel_visit) /\
  In (VitalsDisplay.Reading (Num 120) (Num (-1)))
     (VitalsDisplay.vitals_badges Patient.safeText Patient.formatGender
        VitalsDisplay.sentinel_visit) /\
  In (VitalsDisplay.Reading (Num 120) (Num (-1)))
     (VitalsDisplay.core_cells Doctor.safeText Doctor.formatGender
        VitalsDisplay.sentinel_visit) /\
  In (VitalsDisplay.Reading (Num 120) (Num (-1)))
     (VitalsDisplay.vitals_badges Doctor.safeText Doctor.formatGender
        VitalsDisplay.sentinel_visit) /\
  In (VitalsDisplay.Plain (Str "No data"))
     (VitalsDisplay.core_cells Patient.safeText Patient.formatGender
        VitalsDisplay.sentinel_visit).
Proof.
  repeat split; vm_compute; tauto.
Qed.

(** C3. On a number [v], [safePercent] of either portal renders a number
    followed by a percent sign.  When [v <= 1] (zero included) the number is
    the product [v * 100] rounded: the integer nearest to the product, the
    upper one of two equally near.  When [v > 1] it is [v] rounded in the
    same way.  An infinite [v] is rendered as it is. *)
Theorem safePercent_scale (coerce : Value -> float) (v : float) :
  (PrimFloat.leb v 1 = true ->
     exists n,
       Patient.safePercent (Num v) = Percent n /\
       Doctor.safePercent coerce (Num v) = Percent n /\
       rounded (v * 100) n) /\
  (PrimFloat.ltb 1 v = true ->
     exists n,
       Patient.safePercent (Num v) = Percent n /\
       Doctor.safePercent coerce (Num v) = Percent n /\
       rounded v n) /\
  Patient.safePercent (Num 0) = Percent 0 /\
  Doctor.safePercent coerce (Num 0) = Percent 0.
Proof.
  unfold Patient.safePercent, Doctor.safePercent; cbn [is_nullish ToNumber orb].
  split; [|split; [|split; vm_compute; reflexivity]].
  - intros H. rewrite (leb_not_nan _ _ H), (leb_not_gt _ _ H).
    exists (Math_round (v * 100)).
    split; [reflexivity|]. split; [reflexivity|]. apply Math_round_rounded.
  - intros H. rewrite (ltb_not_nan_r _ _ H), H.
    exists (Math_round v).
    split; [reflexivity|]. split; [reflexivity|]. apply Math_round_rounded.
Qed.

Lemma safeText_placeholder_witness :
  (no_data (Num (-1)) /\ ~ no_data (Num 24.5)) /\
  Patient.safeText (Num (-1)) = Str "No data" /\
  Doctor.safeText (Num (-1)) = Str "—" /\
  Patient.safeText (Num 24.5) = Num 24.5 /\
  Doctor.safeText (Num 24.5) = Num 24.5.
Proof.
  assert (H1 : no_data (Num (-1))) by (right; right; reflexivity).
  assert (H2 : ~ no_data (Num 24.5)) by (intros [H|[H|H]]; discriminate H).
  split; [split; assumption|].
  destruct (proj1 (safeText_placeholder (Num (-1)) VitalsDisplay.sentinel_visit) H1)
    as [Hp Hd].
  destruct (proj1 (proj2 (safeText_placeholder (Num 24.5) VitalsDisplay.sentinel_visit)) H2)
    as [Hp' Hd'].
  repeat split; assumption.
Defined.

(** The double nearest to 0.575, times 100, is the double just below 57.5
    and is rendered 57; 0.125
    gives the tie 12.5, rendered 13; 2.5 and 86.5 are rounded as they are,
    to 3 and 87. *)
Lemma safePercent_scale_witness :
  (PrimFloat.leb 0x1.2666666666666p-1 1 = true /\ PrimFloat.leb 0.125 1 = true /\
   PrimFloat.ltb 1 2.5 = true /\ PrimFloat.ltb 1 86.5 = true) /\
  Patient.safePercent (Num 0x1.2666666666666p-1) = Percent 57 /\
  Doctor.safePercent (fun _ => nan) (Num 0x1.2666666666666p-1) = Percent 57 /\
  Patient.safePercent (Num 0.125) = Percent 13 /\
  Doctor.safePercent (fun _ => nan) (Num 0.125) = Percent 13 /\
  Patient.safePercent (Num 2.5) = Percent 3 /\
  Doctor.safePercent (fun _ => nan) (Num 2.5) = Percent 3 /\
  Patient.safePercent (Num 86.5) = Percent 87 /\
  Doctor.safePercent (fun _ => nan) (Num 86.5) = Percent 87 /\
  rounded (0x1.2666666666666p-1 * 100) 57 /\ rounded 2.5 3.
Proof.
  split; [repeat split; reflexivity|].
  destruct (proj1 (safePercent_scale (fun _ => nan) 0x1.2666666666666p-1) eq_refl)
    as (n1 & Hp1 & Hd1 & Hr1).
  destruct (proj1 (safePercent_scale (fun _ => nan) 0.125) eq_refl)
    as (n2 & Hp2 & Hd2 & _).
  destruct (proj1 (proj2 (safePercent_scale (fun _ => nan) 2.5)) eq_refl)
    as (n3 & Hp3 & Hd3 & Hr3).
  destruct (proj1 (proj2 (safePercent_scale (fun _ => nan) 86.5)) eq_refl)
    as (n4 & Hp4 & Hd4 & _).
  assert (E1 : n1 = 57%float)
    by (vm_compute in Hp1; injection Hp1 as <-; reflexivity).
  assert (E2 : n2 = 13%float)
    by (vm_compute in Hp2; injection Hp2 as <-; reflexivity).
  assert (E3 : n3 = 3%float)
    by (vm_compute in Hp3; injection Hp3 as <-; reflexivity).
  assert (E4 : n4 = 87%float)
    by (vm_compute in Hp4; injection Hp4 as <-; reflexivity).
  subst n1 n2 n3 n4. repeat split; assumption.
Defined.

End DisplayFacts.

(* ===================================================================== *)
(** * Gender display                                                      *)
(* ===================================================================== *)

Section TrimFacts.
Import Js Vocabulary.

Lemma ws1_not_plain (a : N) : ws1 a = true -> ~ plain a.
Proof.
  unfold ws1, plain.
  rewrite orb_true_iff, andb_true_iff, !N.leb_le, N.eqb_eq. lia.
Qed.

Lemma ws2_not_plain (a b : N) : ws2 a b = true -> ~ plain a /\ ~ plain b.
Proof.
  unfold ws2, plain. rewrite andb_true_iff, !N.eqb_eq. lia.
Qed.

Lemma ws3_not_plain (a b c : N) :
  ws3 a b c = true -> ~ plain a /\ ~ plain b /\ ~ plain c.
Proof.
  unfold ws3, plain.
  rewrite !orb_true_iff, !andb_true_iff, !orb_true_iff, !andb_true_iff,
    !N.eqb_eq, !N.leb_le. lia.
Qed.

(** White space at the start: nothing is stripped from a text that starts
    with a plain character. *)
Lemma ws_prefix_len_plain (x : N) (l : list N) :
  plain x -> ws_prefix_len (x :: l) = 0%nat.
Proof.
  intros Hx. unfold ws_prefix_len.
  destruct (ws1 x) eqn:E1; [apply ws1_not_plain in E1; contradiction|].
  destruct l as [|b l]; [reflexivity|].
  destruct (ws2 x b) eqn:E2; [apply ws2_not_plain in E2; tauto|].
  destruct l as [|c l]; [reflexivity|].
  destruct (ws3 x b c) eqn:E3; [apply ws3_not_plain in E3; tauto|reflexivity].
Qed.

(** White space at the end: the bytes counted are all white-space bytes. *)
Lemma ws_suffix_len_spec (rl : list N) (i : nat) (y : N) :
  (i < ws_suffix_len rl)%nat -> rl !! i = Some y -> ~ plain y.
Proof.
  unfold ws_suffix_len.
  destruct rl as [|c t]; [simpl; lia|].
  destruct (ws1 c) eqn:E1.
  { intros Hi. assert (i = 0%nat) by lia. subst i. simpl. intros [= <-].
    apply ws1_not_plain, E1. }
  destruct t as [|b t]; [simpl; lia|].
  destruct (ws2 b c) eqn:E2.
  { apply ws2_not_plain in E2. intros Hi Hy.
    destruct i as [|[|i]]; simpl in Hy; [| |lia]; injection Hy as <-; tauto. }
  destruct t as [|a t]; [simpl; lia|].
  destruct (ws3 a b c) eqn:E3; [|simpl; lia].
  apply ws3_not_plain in E3. intros Hi Hy.
  destruct i as [|[|[|i]]]; simpl in Hy; [| | |lia]; injection Hy as <-; tauto.
Qed.

Lemma length_bytes_of (s : string) : length (bytes_of s) = String.length s.
Proof.
  unfold bytes_of. rewrite length_map.
  induction s as [|c r IH]; simpl; congruence.
Qed.

Lemma bytes_of_cons (c : ascii) (r : string) :
  bytes_of (String c r) = N_of_ascii c :: bytes_of r.
Proof. reflexivity. Qed.

(** The white space counted at the end of a text that starts with a plain
    character leaves that character alone. *)
Lemma ws_suffix_len_head (c : ascii) (r : string) :
  plain (N_of_ascii c) ->
  (ws_suffix_len (rev (bytes_of (String c r))) <= String.length r)%nat.
Proof.
  intros Hc. rewrite bytes_of_cons. simpl rev.
  destruct (Nat.le_gt_cases
              (ws_suffix_len (rev (bytes_of r) ++ [N_of_ascii c]))
              (String.length r)) as [Hle|Hgt]; [exact Hle|].
  exfalso.
  apply (ws_suffix_len_spec _ (String.length r) (N_of_ascii c) Hgt); [|exact Hc].
  rewrite lookup_app_r by (rewrite length_rev, length_bytes_of; lia).
  rewrite length_rev, length_bytes_of, Nat.sub_diag. reflexivity.
Qed.

Lemma trimStart_fuel_plain (fuel : nat) (c : ascii) (r : string) :
  plain (N_of_ascii c) -> trimStart_fuel fuel (String c r) = String c r.
Proof.
  intros Hc. destruct fuel as [|fuel]; [reflexivity|].
  cbn [trimStart_fuel]. rewrite bytes_of_cons, ws_prefix_len_plain by exact Hc.
  reflexivity.
Qed.

Lemma trimEnd_fuel_plain (fuel : nat) (c : ascii) (r : string) :
  plain (N_of_ascii c) -> exists r', trimEnd_fuel fuel (String c r) = String c r'.
Proof.
  intros Hc. revert r. induction fuel as [|fuel IH]; intros r.
  - exists r. reflexivity.
  - cbn [trimEnd_fuel].
    pose proof (ws_suffix_len_head c r Hc) as Hle.
    destruct (ws_suffix_len (rev (bytes_of (String c r)))) as [|n] eqn:En.
    + exists r. reflexivity.
    + replace (String.length (String c r) - S n)%nat
        with (S (String.length r - S n)) by (simpl; lia).
      cbn [String.substring]. apply IH.
Qed.

(** [trim] keeps the first character of a text that starts with a plain
    one, so a prefix test against such a character survives trimming. *)
Lemma trim_plain_head (c : ascii) (r : string) :
  plain (N_of_ascii c) -> exists r', trim (String c r) = String c r'.
Proof.
  intros Hc. unfold trim, trimStart, trimEnd.
  rewrite trimStart_fuel_plain by exact Hc.
  apply trimEnd_fuel_plain, Hc.
Qed.

Lemma startsWith_char (s : string) (c : ascii) :
  startsWith s (String c "") = true <-> exists r, s = String c r.
Proof.
  unfold startsWith. split.
  - destruct s as [|a r]; [discriminate|]. cbn [String.prefix].
    destruct (ascii_dec c a) as [<-|]; [|discriminate]. intros _. exists r. reflexivity.
  - intros [r ->]. cbn [String.prefix]. destruct (ascii_dec c c); [|congruence].
    destruct r; reflexivity.
Qed.

Lemma startsWith_trim (s : string) (c : ascii) :
  plain (N_of_ascii c) ->
  startsWith s (String c "") = true -> startsWith (trim s) (String c "") = true.
Proof.
  intros Hc Hs. apply startsWith_char in Hs as [r ->].
  destruct (trim_plain_head c r Hc) as [r' ->].
  apply startsWith_char. exists r'. reflexivity.
Qed.

Lemma plain_m : plain (N_of_ascii "m").
Proof. unfold plain. simpl. lia. Qed.

Lemma plain_f : plain (N_of_ascii "f").
Proof. unfold plain. simpl. lia. Qed.

End TrimFacts.

Section GenderFacts.
Import Js Vocabulary Backend.Extractor.

Lemma starts_m_not_f (s : string) :
  startsWith s "m" = true -> startsWith s "f" = false.
Proof. intros H. apply startsWith_char in H as [r ->]. reflexivity. Qed.

Lemma starts_f_not_m (s : string) :
  startsWith s "f" = true -> startsWith s "m" = false.
Proof. intros H. apply startsWith_char in H as [r ->]. reflexivity. Qed.

(** A text whose lower-case form starts with a letter is neither "0" nor
    "1". *)
Lemma starts_letter_not_digit (s : string) (c : ascii) :
  c <> "0"%char -> c <> "1"%char ->
  startsWith (toLowerCase s) (String c "") = true ->
  String.eqb s "0" = false /\ String.eqb s "1" = false.
Proof.
  intros H0 H1 H. apply startsWith_char in H as [r Hr].
  split; apply String.eqb_neq; intros ->;
    change (toLowerCase "0") with "0" in Hr;
    change (toLowerCase "1") with "1" in Hr; congruence.
Qed.

Lemma Doctor_formatGender_text (s : string) :
  Doctor.formatGender (Str s) =
    if String.eqb s "0" then "Male"
    else if String.eqb s "1" then "Female"
    else if startsWith (trim (toLowerCase s)) "m" then "Male"
    else if startsWith (trim (toLowerCase s)) "f" then "Female"
    else "Other".
Proof. reflexivity. Qed.

Lemma Receptionist_formatGender_text (s : string) :
  Receptionist.formatGender (Str s) =
    if startsWith (toLowerCase s) "m" then Str "Male"
    else if startsWith (toLowerCase s) "f" then Str "Female"
    else Str s.
Proof. reflexivity. Qed.

(** C5, as the portals implement it.  [formatGender] of the receptionist
    and of the doctor portal shows "N/A" for an absent value; "Male" for
    the number 0 and "Female" for the number 1; "Male" for a text whose
    lower-case form starts with "m" and "Female" for one that starts with
    "f"; and "Other" for any other present value that is not a text.  Any
    other text is shown as it is by the receptionist portal, while the
    doctor portal shows "Male" for "0", "Female" for "1", matches the
    prefix after trimming white space, and shows "Other" for the rest. *)
Theorem formatGender_display :
  (forall g : Value, is_nullish g = true ->
     Receptionist.formatGender g = Str "N/A" /\ Doctor.formatGender g = "N/A") /\
  (forall x : float, PrimFloat.eqb x 0 = true ->
     Receptionist.formatGender (Num x) = Str "Male" /\
     Doctor.formatGender (Num x) = "Male") /\
  (forall x : float, PrimFloat.eqb x 1 = true ->
     Receptionist.formatGender (Num x) = Str "Female" /\
     Doctor.formatGender (Num x) = "Female") /\
  (forall s : string, startsWith (toLowerCase s) "m" = true ->
     Receptionist.formatGender (Str s) = Str "Male" /\
     Doctor.formatGender (Str s) = "Male") /\
  (forall s : string, startsWith (toLowerCase s) "f" = true ->
     Receptionist.formatGender (Str s) = Str "Female" /\
     Doctor.formatGender (Str s) = "Female") /\
  (forall s : string,
     startsWith (toLowerCase s) "m" = false ->
     startsWith (toLowerCase s) "f" = false ->
     Receptionist.formatGender (Str s) = Str s /\
     Doctor.formatGender (Str s) =
       if String.eqb s "0" then "Male"
       else if String.eqb s "1" then "Female"
       else if startsWith (trim (toLowerCase s)) "m" then "Male"
       else if startsWith (trim (toLowerCase s)) "f" then "Female"
       else "Other") /\
  (forall g : Value,
     is_nullish g = false -> typeof_string g = false ->
     strict_eq_num g 0 = false -> strict_eq_num g 1 = false ->
     Receptionist.formatGender g = Str "Other" /\
     Doctor.formatGender g = "Other").
Proof.
  split; [|split; [|split; [|split; [|split; [|split]]]]].
  - intros g Hg. destruct g; try discriminate; split; reflexivity.
  - intros x Hx. unfold Receptionist.formatGender, Doctor.formatGender.
    cbn [is_nullish strict_eq_str strict_eq_num typeof_number andb].
    rewrite Hx. split; reflexivity.
  - intros x Hx. unfold Receptionist.formatGender, Doctor.formatGender.
    cbn [is_nullish strict_eq_str strict_eq_num typeof_number andb].
    rewrite Hx. apply eqb_one in Hx. subst x.
    change (PrimFloat.eqb 1 0) with false. split; reflexivity.
  - intros s Hs. rewrite Receptionist_formatGender_text, Doctor_formatGender_text.
    destruct (starts_letter_not_digit s "m" ltac:(discriminate) ltac:(discriminate) Hs)
      as [-> ->].
    rewrite Hs, (startsWith_trim _ "m" plain_m Hs). split; reflexivity.
  - intros s Hs. rewrite Receptionist_formatGender_text, Doctor_formatGender_text.
    destruct (starts_letter_not_digit s "f" ltac:(discriminate) ltac:(discriminate) Hs)
      as [-> ->].
    pose proof (startsWith_trim _ "f" plain_f Hs) as Ht.
    rewrite (starts_f_not_m _ Hs), Hs, (starts_f_not_m _ Ht), Ht. split; reflexivity.
  - intros s Hm Hf. rewrite Receptionist_formatGender_text, Hm, Hf.
    split; reflexivity.
  - intros g Hn Hs H0 H1. unfold Receptionist.formatGender, Doctor.formatGender.
    rewrite Hn, H0, H1.
    destruct g; try discriminate; cbn [strict_eq_str typeof_number andb];
      split; reflexivity.
Qed.

(** C5 as stated fails on texts: the spec's rule puts "xyz" and " male"
    (with a leading blank) in the category other, but the receptionist
    portal shows "xyz" itself and the doctor portal shows " male" as
    "Male". *)
Lemma formatGender_other_counterexample :
  normalize_gender (Str "xyz") = other /\
  Receptionist.formatGender (Str "xyz") = Str "xyz" /\
  Receptionist.formatGender (Str "xyz")
    <> Str (gender_label (normalize_gender (Str "xyz"))) /\
  normalize_gender (Str " male") = other /\
  Doctor.formatGender (Str " male") = "Male" /\
  Doctor.formatGender (Str " male")
    <> gender_label (normalize_gender (Str " male")).
Proof. vm_compute. repeat split; discriminate. Qed.

Lemma formatGender_display_witness :
  (startsWith (toLowerCase "Male") "m" = true /\
   startsWith (toLowerCase "FEMALE") "f" = true /\
   is_nullish Undefined = true) /\
  Receptionist.formatGender (Str "Male") = Str "Male" /\
  Doctor.formatGender (Str "Male") = "Male" /\
  Receptionist.formatGender (Str "FEMALE") = Str "Female" /\
  Doctor.formatGender (Str "FEMALE") = "Female" /\
  Receptionist.formatGender Undefined = Str "N/A" /\
  Doctor.formatGender Undefined = "N/A".
Proof.
  split; [repeat split|].
  destruct formatGender_display as (Habs & _ & _ & Hm & Hf & _).
  destruct (Hm "Male" eq_refl) as [H1 H2].
  destruct (Hf "FEMALE" eq_refl) as [H3 H4].
  destruct (Habs Undefined eq_refl) as [H5 H6].
  repeat split; assumption.
Defined.

End GenderFacts.

(* ===================================================================== *)
(** * The result grid and the insufficient-data slots                     *)
(* ===================================================================== *)

Section GridFacts.
Import Js Labels ResultGrid.

Lemma guarded_card_present (d : Disease) (s : DiseaseSlot) :
  guarded_card (title_of d) (label_of d) (Some s) = Some (shown d s).
Proof.
  unfold guarded_card, shown. destruct (strict_eq_num (prediction s) (-1)); reflexivity.
Qed.

(** With its four slots present the grid is the four guarded entries,
    obesity, diabetes, liver, hypertension. *)
Lemma grid_present (ds : Diseases) (so sd sl sh : DiseaseSlot) :
  slot_obesity ds = Some so -> slot_diabetes ds = Some sd ->
  slot_liver ds = Some sl -> slot_hypertension ds = Some sh ->
  grid ds = Some (shown obesity so ++ shown diabetes sd ++
                  shown liver sl ++ shown hypertension sh)%list.
Proof.
  intros Ho Hd Hl Hh. unfold grid. rewrite Ho, Hd, Hl, Hh.
  rewrite (guarded_card_present obesity), (guarded_card_present diabetes),
    (guarded_card_present liver), (guarded_card_present hypertension).
  reflexivity.
Qed.

(** A slot that is missing from the envelope breaks the render. *)
Lemma grid_absent_slot (ds : Diseases) (d : Disease) :
  slot_of d ds = None -> grid ds = None.
Proof.
  destruct ds as [[o|] [b|] [l|] [h|]]; destruct d; simpl; intros H;
    try discriminate; unfold grid, guarded_card; simpl;
    repeat match goal with
           | |- context [strict_eq_num ?p ?k] => destruct (strict_eq_num p k); simpl
           end; reflexivity.
Qed.

Lemma shown_titles (d d' : Disease) (s : DiseaseSlot) (c : DiseaseCard) :
  c ∈ shown d s -> title c = title_of d' -> d = d'.
Proof.
  unfold shown. destruct (strict_eq_num (prediction s) (-1)).
  - intros H. apply elem_of_nil in H. contradiction.
  - intros H. apply list_elem_of_singleton in H. subst c. simpl.
    destruct d, d'; simpl; intros; congruence.
Qed.

Lemma shown_label (d : Disease) (s : DiseaseSlot) (c : DiseaseCard) :
  c ∈ shown d s -> label c <> "Insufficient Data".
Proof.
  unfold shown. destruct (strict_eq_num (prediction s) (-1)) eqn:E.
  - intros H. apply elem_of_nil in H. contradiction.
  - intros H. apply list_elem_of_singleton in H. subst c. simpl.
    intros Hl. apply label_insufficient_iff in Hl. congruence.
Qed.

(** C8, as the grids implement it.  When the envelope carries its four
    disease slots, the result grid of the upload component and of the
    receptionist portal renders, in the order obesity, diabetes, liver,
    hypertension, one card for each slot whose prediction is not -1, and
    no card for a slot whose prediction is -1; no card is ever labelled
    "Insufficient Data". *)
Theorem grid_shows_scored_slots (ds : Diseases) (so sd sl sh : DiseaseSlot) :
  slot_obesity ds = Some so -> slot_diabetes ds = Some sd ->
  slot_liver ds = Some sl -> slot_hypertension ds = Some sh ->
  exists cards : list DiseaseCard,
    grid ds = Some cards /\
    cards = (shown obesity so ++ shown diabetes sd ++
             shown liver sl ++ shown hypertension sh)%list /\
    (forall (d : Disease) (s : DiseaseSlot), slot_of d ds = Some s ->
       (prediction s = Num (-1) ->
          forall c, c ∈ cards -> title c <> title_of d) /\
       (prediction s <> Num (-1) -> card_of d s ∈ cards)) /\
    (forall c, c ∈ cards -> label c <> "Insufficient Data").
Proof.
  intros Ho Hd Hl Hh. eexists. split; [apply (grid_present ds so sd sl sh); assumption|].
  split; [reflexivity|]. split.
  - intros d s Hs. split.
    + intros Hp c Hc Ht.
      assert (Hnone : shown d s = []).
      { unfold shown. apply strict_eq_minus_one in Hp. rewrite Hp. reflexivity. }
      rewrite !elem_of_app in Hc.
      destruct Hc as [Hc|[Hc|[Hc|Hc]]];
        pose proof (shown_titles _ d _ _ Hc Ht) as <-;
        simpl in Hs; rewrite Hs in *; simplify_eq;
        rewrite Hnone in Hc; apply elem_of_nil in Hc; contradiction.
    + intros Hp. apply strict_eq_not_minus_one in Hp.
      assert (Hin : card_of d s ∈ shown d s).
      { unfold shown. rewrite Hp. apply list_elem_of_singleton. reflexivity. }
      rewrite !elem_of_app.
      destruct d; simpl in Hs; rewrite Hs in *; simplify_eq; tauto.
  - intros c Hc. rewrite !elem_of_app in Hc.
    destruct Hc as [Hc|[Hc|[Hc|Hc]]]; apply (shown_label _ _ _ Hc).
Qed.

End GridFacts.

Section GridExamples.
Import Js Labels ResultGrid.

Lemma grid_shows_scored_slots_witness :
  (slot_obesity partial_result = Some insufficient_slot /\
   slot_diabetes partial_result = Some (scored_slot 1) /\
   slot_liver partial_result = Some (scored_slot 0) /\
   slot_hypertension partial_result = Some (scored_slot 1)) /\
  exists cards : list DiseaseCard,
    grid partial_result = Some cards /\
    cards = [card_of diabetes (scored_slot 1); card_of liver (scored_slot 0);
             card_of hypertension (scored_slot 1)] /\
    (forall c, c ∈ cards -> label c <> "Insufficient Data").
Proof.
  split; [repeat split|].
  destruct (grid_shows_scored_slots partial_result insufficient_slot
              (scored_slot 1) (scored_slot 0) (scored_slot 1)
              eq_refl eq_refl eq_refl eq_refl)
    as (cards & Hg & Hc & _ & Hl).
  exists cards. split; [exact Hg|]. split; [exact Hc|exact Hl].
Defined.

(** C8 as stated fails on the grid: a slot whose prediction is -1 gets no
    card.  With the obesity slot insufficient the grid holds the three other
    cards and none titled "Obesity Screening"; with four insufficient slots
    it is empty. *)
Lemma grid_drops_insufficient_counterexample :
  slot_of obesity partial_result = Some insufficient_slot /\
  prediction insufficient_slot = Num (-1) /\
  grid partial_result =
    Some [card_of diabetes (scored_slot 1); card_of liver (scored_slot 0);
          card_of hypertension (scored_slot 1)] /\
  ~ (exists cards c, grid partial_result = Some cards /\ c ∈ cards /\
                     title c = title_of obesity) /\
  grid empty_result = Some [].
Proof.
  split; [reflexivity|]. split; [reflexivity|].
  split; [vm_compute; reflexivity|]. split; [|vm_compute; reflexivity].
  intros (cards & c & Hg & Hc & Ht).
  assert (Hcards : cards =
            [card_of diabetes (scored_slot 1); card_of liver (scored_slot 0);
             card_of hypertension (scored_slot 1)]).
  { vm_compute in Hg. injection Hg as <-. reflexivity. }
  subst cards.
  repeat (apply elem_of_cons in Hc as [->|Hc]; [discriminate Ht|]).
  apply elem_of_nil in Hc. exact Hc.
Qed.

End GridExamples.

(* ===================================================================== *)
(** * Upload errors: status and handling                                  *)
(* ===================================================================== *)

Section UploadErrors.
Import Js Receptionist Backend.Errors.
Variable Envelope : Type.

(** The handler before a file is chosen does nothing at all. *)
Lemma handleRunAnalysis_no_file (st : State Envelope) (o : Outcome Envelope) :
  file_selected _ st = false -> handleRunAnalysis _ st o = st.
Proof. unfold handleRunAnalysis. intros ->. reflexivity. Qed.


(** The upload component of the home page reports every failure alike and
    keeps no result either. *)
Lemma Home_upload_failed (st : Home.State Envelope) :
  Home.file_selected _ st = true ->
  Home.result _ (Home.upload _ st None) = None /\
  Home.error _ (Home.upload _ st None) = Some Home.failure_message.
Proof. unfold Home.upload. intros ->. split; reflexivity. Qed.



End UploadErrors.

Section UploadErrorExamples.
Import Js Receptionist Backend.Errors Samples.


End UploadErrorExamples.

(* ===================================================================== *)
(** * History pagination                                                  *)
(* ===================================================================== *)

Section Pagination.
Import Api Backend.History.
Variable Rx : Type.

(** What every page carries: the echoed parameters, the record count, the
    page count as a ceiling, the two flags by comparison with the page
    number, and never more than [limit] records. *)
Lemma paginate_fields (records : list Rx) (page limit : Z) :
  1 <= page -> 1 <= limit ->
  let r := paginate records page limit in
  resp_page r = page /\ resp_limit r = limit /\
  resp_total_records r = Z.of_nat (length records) /\
  (resp_total_pages r - 1) * limit < Z.of_nat (length records)
    <= resp_total_pages r * limit /\
  (resp_has_next r = true <-> page < resp_total_pages r) /\
  (resp_has_prev r = true <-> 1 < page) /\
  exists d, data r = Some d /\ Z.of_nat (length d) <= limit.
Proof.
  intros Hp Hl r. subst r. unfold paginate. cbn.
  split; [reflexivity|]. split; [reflexivity|]. split; [reflexivity|].
  split.
  - set (n := Z.of_nat (length records)).
    pose proof (Z.div_mod (n + limit - 1) limit ltac:(lia)) as Hd.
    pose proof (Z.mod_pos_bound (n + limit - 1) limit ltac:(lia)) as Hm.
    nia.
  - split; [apply Z.ltb_lt|]. split; [apply Z.ltb_lt|].
    eexists. split; [reflexivity|]. rewrite length_take. lia.
Qed.

(** The pages of a history, one after the other, are the history. *)
Lemma paginate_covers (records : list Rx) (limit : Z) (n : nat) :
  1 <= limit ->
  concat (map (fun p => default [] (data (paginate records (Z.of_nat p + 1) limit)))
            (seq 0 n))
  = take (n * Z.to_nat limit) records.
Proof.
  intros Hl. induction n as [|n IH].
  - reflexivity.
  - rewrite seq_S, map_app, concat_app, IH. cbn [map concat default data paginate].
    rewrite app_nil_r.
    replace (Z.to_nat ((Z.of_nat (0 + n) + 1 - 1) * limit))
      with (n * Z.to_nat limit)%nat by nia.
    replace (S n * Z.to_nat limit)%nat
      with (n * Z.to_nat limit + Z.to_nat limit)%nat by lia.
    apply take_take_drop.
Qed.

(** C9. A history response is the seven-field record [data, page, limit,
    total_pages, total_records, has_next, has_prev], which both portals copy
    into their state.  Page 2 with limit 10 over 25 committed records carries
    10 records (the eleventh to the twentieth), [total_pages = 3],
    [has_next = true] and [has_prev = true]. *)
Theorem history_page_two (records : list Rx)
    (pst : Patient.HistoryState Rx) (dst : Doctor.HistoryState Rx) :
  length records = 25%nat ->
  let r := paginate records 2 10 in
  r = {| data := Some (take 10 (drop 10 records));
         resp_page := 2; resp_limit := 10;
         resp_total_pages := 3; resp_total_records := 25;
         resp_has_next := true; resp_has_prev := true |} /\
  length (take 10 (drop 10 records)) = 10%nat /\
  Patient.fetchHistory Rx pst (Some r) =
    {| Patient.history := take 10 (drop 10 records);
       Patient.pagination :=
         {| page := 2; limit := 10; total_pages := 3; total_records := 25;
            has_next := true; has_prev := true |};
       Patient.loading := false |} /\
  (Doctor.searchId _ dst <> "" ->
   Doctor.fetchPatientHistory Rx dst (Some r) =
     {| Doctor.searchId := Doctor.searchId _ dst;
        Doctor.searched := true;
        Doctor.history := Some (take 10 (drop 10 records));
        Doctor.pagination :=
          {| page := 2; limit := 10; total_pages := 3; total_records := 25;
             has_next := true; has_prev := true |};
        Doctor.loading := false |}).
Proof.
  intros Hlen r.
  assert (Hr : r = {| data := Some (take 10 (drop 10 records));
                      resp_page := 2; resp_limit := 10;
                      resp_total_pages := 3; resp_total_records := 25;
                      resp_has_next := true; resp_has_prev := true |}).
  { subst r. unfold paginate. rewrite Hlen. reflexivity. }
  split; [exact Hr|]. split.
  - rewrite length_take, length_drop, Hlen. reflexivity.
  - rewrite Hr. split; [reflexivity|].
    intros Hs. unfold Doctor.fetchPatientHistory.
    apply String.eqb_neq in Hs. rewrite Hs. reflexivity.
Qed.

End Pagination.

Section PaginationExamples.
Import Api Backend.History.

Lemma history_page_two_witness :
  length (seq 1 25) = 25%nat /\
  paginate (seq 1 25) 2 10 =
    {| data := Some (seq 11 10);
       resp_page := 2; resp_limit := 10;
       resp_total_pages := 3; resp_total_records := 25;
       resp_has_next := true; resp_has_prev := true |} /\
  length (seq 11 10) = 10%nat.
Proof.
  split; [reflexivity|].
  pose proof (history_page_two nat (seq 1 25)
                {| Patient.history := []; Patient.pagination := initial_pagination;
                   Patient.loading := false |}
                {| Doctor.searchId := "P-1"; Doctor.searched := false;
                   Doctor.history := Some []; Doctor.pagination := initial_pagination;
                   Doctor.loading := false |}
                eq_refl) as H.
  cbv zeta in H. destruct H as (Hr & Hl & _).
  split; [exact Hr|exact Hl].
Defined.

End PaginationExamples.

(* ===================================================================== *)
(** * Derived BMI                                                         *)
(* ===================================================================== *)

Section Bmi.
Import Backend.Extractor.
Local Open Scope Q_scope.

(** Rounding to the nearest integer moves a number by a half at most. *)
Lemma round_half_even_error (q : Q) :
  Qabs (inject_Z (round_half_even q) - q) <= 1 # 2.
Proof.
  apply Qabs_Qle_condition.
  destruct q as [n d]. unfold round_half_even. cbn [Qnum Qden].
  pose proof (Z.div_mod n (Z.pos d) ltac:(lia)) as Hd.
  pose proof (Z.mod_pos_bound n (Z.pos d) ltac:(lia)) as Hm.
  set (f := (n / Z.pos d)%Z) in *.
  assert (Hr : (n - f * Z.pos d = n mod Z.pos d)%Z) by lia.
  rewrite Hr.
  destruct (2 * (n mod Z.pos d) <? Z.pos d)%Z eqn:E1;
    [apply Z.ltb_lt in E1|apply Z.ltb_ge in E1;
     destruct (Z.pos d <? 2 * (n mod Z.pos d))%Z eqn:E2;
       [apply Z.ltb_lt in E2|apply Z.ltb_ge in E2; destruct (Z.even f)]];
    unfold Qle, Qminus, Qplus, Qopp, inject_Z; cbn [Qnum Qden];
    split; nia.
Qed.

(** Rounding to one decimal place moves a number by a twentieth at most and
    yields a number of tenths. *)
Lemma round1_error (q : Q) : Qabs (round1 q - q) <= 1 # 20.
Proof.
  pose proof (round_half_even_error (q * 10)) as H.
  apply Qabs_Qle_condition in H. apply Qabs_Qle_condition.
  unfold round1. set (z := round_half_even (q * 10)) in *.
  destruct q as [n d]. revert H.
  unfold Qle, Qminus, Qplus, Qopp, Qmult, inject_Z; cbn [Qnum Qden].
  intros [H1 H2]. split; nia.
Qed.

(** C6. With height and weight present and no BMI stated, the extractor
    outputs [weight / (height/100)^2] rounded to one decimal place: a
    number of tenths within a twentieth of the quotient.  For 170 cm and
    70 kg that is 24.2.  A BMI stated in the document is kept. *)
Theorem derive_bmi_rounds (h w : Q) :
  0 < h ->
  (exists z : Z,
     derive_bmi (Some h) (Some w) None = Some (z # 10) /\
     Qabs ((z # 10) - w / ((h / 100) * (h / 100))) <= 1 # 20) /\
  w / ((h / 100) * (h / 100)) * ((h / 100) * (h / 100)) == w /\
  derive_bmi (Some (170 # 1)) (Some (70 # 1)) None = Some (242 # 10) /\
  (forall b : Q, derive_bmi (Some h) (Some w) (Some b) = Some b).
Proof.
  intros Hh. split; [|split; [|split; [vm_compute; reflexivity|reflexivity]]].
  - exists (round_half_even (w / ((h / 100) * (h / 100)) * 10)).
    split; [reflexivity|]. apply round1_error.
  - rewrite Qmult_comm. apply Qmult_div_r.
    assert (Hp : 0 < h / 100)
      by (apply Qlt_shift_div_l; [reflexivity|rewrite Qmult_0_l; exact Hh]).
    pose proof (Qmult_lt_0_compat _ _ Hp Hp) as Hsq.
    intros H0. rewrite H0 in Hsq. exact (Qlt_irrefl 0 Hsq).
Qed.

Lemma derive_bmi_rounds_witness :
  0 < 170 # 1 /\
  (exists z : Z,
     derive_bmi (Some (170 # 1)) (Some (70 # 1)) None = Some (z # 10) /\
     Qabs ((z # 10) - (70 # 1) / (((170 # 1) / 100) * ((170 # 1) / 100))) <= 1 # 20) /\
  derive_bmi (Some (170 # 1)) (Some (70 # 1)) None = Some (242 # 10).
Proof.
  split; [reflexivity|].
  destruct (derive_bmi_rounds (170 # 1) (70 # 1) eq_refl) as (H1 & _ & H2 & _).
  split; [exact H1|exact H2].
Defined.

End Bmi.

(* ===================================================================== *)
(** * Insufficient data in the orchestrator                               *)
(* ===================================================================== *)

Section OrchestratorFacts.
Import Labels Backend.Orchestrator.
Variable Num : Type.
Variable required : Disease -> list string.
Variable provider : Disease -> list (string * Num) -> option (Score Num).
Variable normalize : Num -> Num.

(** The projection fails exactly when a listed feature is null. *)
Lemma project_None (r : gmap string Num) (fs : list string) :
  project Num r fs = None <-> exists f, f ∈ fs /\ r !! f = None.
Proof.
  induction fs as [|f fs IH]; simpl.
  - split; [discriminate|]. intros (f & Hf & _). apply elem_of_nil in Hf. contradiction.
  - destruct (r !! f) as [v|] eqn:Ef.
    + destruct (project Num r fs) as [vs|] eqn:Ep.
      * split; [discriminate|]. intros (g & Hg & Hn).
        apply elem_of_cons in Hg as [->|Hg]; [congruence|].
        destruct IH as [_ IH]. discriminate IH. exists g. split; assumption.
      * split; [|reflexivity]. intros _.
        destruct IH as [IH _]. destruct (IH eq_refl) as (g & Hg & Hn).
        exists g. split; [apply elem_of_cons; right; exact Hg|exact Hn].
    + split; [|reflexivity]. intros _. exists f. split; [apply elem_of_cons; left; reflexivity|exact Ef].
Qed.

(** A projection that succeeds pairs each listed feature, in order, with
    its value in the record. *)
Lemma project_Some (r : gmap string Num) (fs : list string)
    (fv : list (string * Num)) :
  project Num r fs = Some fv ->
  map fst fv = fs /\ Forall (fun p => r !! fst p = Some (snd p)) fv.
Proof.
  revert fv. induction fs as [|f fs IH]; simpl; intros fv.
  - intros [= <-]. split; [reflexivity|constructor].
  - destruct (r !! f) as [v|] eqn:Ef; [|discriminate].
    destruct (project Num r fs) as [vs|]; [|discriminate].
    intros [= <-]. destruct (IH vs eq_refl) as [Hm Hall].
    split; [simpl; congruence|]. constructor; [exact Ef|exact Hall].
Qed.

(** C1. If a feature on a disease's requirement list is null in the
    extracted record, the envelope of that disease is exactly
    [{prediction: -1, confidence: null, future_risk: null, features_used: {}}],
    by itself and in the [diseases] object of the response, whatever the
    provider and whatever the record holds for the other diseases; so a
    disease that is scored has every feature it requires. *)
Theorem insufficient_features (d : Disease) (r : gmap string Num) (f : string) :
  f ∈ required d -> r !! f = None ->
  predict Num required provider normalize d r =
    {| prediction := -1; confidence := None; future_risk := None;
       features_used := ∅ |} /\
  envelope_of Num d (run Num required provider normalize r) =
    {| prediction := -1; confidence := None; future_risk := None;
       features_used := ∅ |}.
Proof.
  intros Hf Hn.
  assert (Hp : project Num r (required d) = None)
    by (apply project_None; exists f; split; assumption).
  assert (He : predict Num required provider normalize d r = insufficient)
    by (unfold predict; rewrite Hp; reflexivity).
  split; [exact He|]. destruct d; exact He.
Qed.

(** A disease that is scored was scored on its whole feature list. *)
Lemma scored_on_full_features (d : Disease) (r : gmap string Num) :
  prediction (predict Num required provider normalize d r) <> -1 ->
  exists fv, project Num r (required d) = Some fv /\
             map fst fv = required d /\
             features_used (predict Num required provider normalize d r)
               = list_to_map fv.
Proof.
  unfold predict. destruct (project Num r (required d)) as [fv|] eqn:Ep.
  - destruct (provider d fv) as [sc|]; simpl; [|congruence].
    intros _. exists fv. split; [reflexivity|].
    split; [apply (project_Some _ _ _ Ep)|reflexivity].
  - simpl. congruence.
Qed.

End OrchestratorFacts.

Section OrchestratorExamples.
Import Labels Backend.Orchestrator Samples.

Lemma insufficient_features_witness :
  ("height_cm" ∈ sample_required obesity /\ sample_record !! "height_cm" = None) /\
  envelope_of Z obesity (run Z sample_required sample_provider id sample_record) =
    {| prediction := -1; confidence := None; future_risk := None;
       features_used := ∅ |} /\
  prediction
    (envelope_of Z diabetes (run Z sample_required sample_provider id sample_record))
  = 1.
Proof.
  assert (Hin : "height_cm" ∈ sample_required obesity)
    by (simpl; apply elem_of_cons; right; apply elem_of_cons; right;
        apply elem_of_cons; left; reflexivity).
  assert (Hn : sample_record !! "height_cm" = None) by (vm_compute; reflexivity).
  split; [split; assumption|].
  split; [|vm_compute; reflexivity].
  exact (proj2 (insufficient_features Z sample_required sample_provider id
                  obesity sample_record "height_cm" Hin Hn)).
Defined.

End OrchestratorExamples.

(* ===================================================================== *)
(** * Concurrent uploads of one serial                                    *)
(* ===================================================================== *)

Section DedupFacts.
Import Backend.Dedup DedupView.
Local Open Scope nat_scope.

(** ** Counting *)

Lemma count_app {A : Type} (f : A -> bool) (l1 l2 : list A) :
  count f (l1 ++ l2) = count f l1 + count f l2.
Proof. induction l1 as [|x l1 IH]; simpl; [reflexivity|rewrite IH; lia]. Qed.

(** Replacing one element moves the count by the difference of the two. *)
Lemma count_insert {A : Type} (f : A -> bool) (l : list A) (i : nat) (x y : A) :
  l !! i = Some x ->
  count f (<[i := y]> l) + (if f x then 1 else 0)
  = count f l + (if f y then 1 else 0).
Proof.
  revert i. induction l as [|a l IH]; intros i Hi; [discriminate|].
  destruct i as [|i]; simpl in *.
  - injection Hi as ->. lia.
  - specialize (IH i Hi). lia.
Qed.

Lemma count_insert_same {A : Type} (f : A -> bool) (l : list A) (i : nat) (x y : A) :
  l !! i = Some x -> f x = f y -> count f (<[i := y]> l) = count f l.
Proof.
  intros Hi Hf. pose proof (count_insert f l i x y Hi) as H.
  rewrite Hf in H. lia.
Qed.

Lemma count_zero_existsb {A : Type} (f : A -> bool) (l : list A) :
  existsb f l = false <-> count f l = 0.
Proof.
  induction l as [|x l IH]; simpl; [tauto|].
  destruct (f x); simpl; [split; [discriminate|lia]|exact IH].
Qed.

Lemma sum_list_insert (l : list nat) (i x y : nat) :
  l !! i = Some x -> sum_list (<[i := y]> l) + x = sum_list l + y.
Proof.
  revert i. induction l as [|a l IH]; intros i Hi; [discriminate|].
  destruct i as [|i]; simpl in *.
  - injection Hi as ->. lia.
  - specialize (IH i Hi). lia.
Qed.

(** ** One step *)

(** A step keeps the serial and the patient of an upload. *)
Lemma advance_serial (st st' : Storage) (u u' : Upload) :
  advance st u = Some (st', u') -> serial u' = serial u /\ patient u' = patient u.
Proof.
  unfold advance. destruct u as [sr pt ph]; cbn [phase serial patient set_phase].
  destruct ph; try discriminate; try destruct sr as [s1|];
    try destruct (insert_unique _ st);
    intros [= <- <-]; split; reflexivity.
Qed.

(** An upload that is not finished can step, and is then closer to its
    end. *)
Lemma advance_progress (st : Storage) (u : Upload) :
  finished u = false ->
  exists st' u', advance st u = Some (st', u') /\ steps_left u' < steps_left u.
Proof.
  unfold finished, advance, steps_left.
  destruct u as [sr pt ph]; cbn [phase serial patient set_phase].
  destruct ph; try discriminate; intros _; try destruct sr as [s1|];
    try destruct (insert_unique _ st);
    eexists _, _; (split; [reflexivity|simpl; lia]).
Qed.

Lemma advance_finished (st : Storage) (u : Upload) :
  finished u = true -> advance st u = None.
Proof. unfold finished, advance. destruct (phase u); try discriminate; reflexivity. Qed.

Lemma existsb_has_serial (s : string) (st : Storage) :
  existsb (has_serial s) st = negb (stored s st =? 0).
Proof.
  unfold stored. destruct (count (has_serial s) st =? 0) eqn:E.
  - apply Nat.eqb_eq in E. apply count_zero_existsb in E. rewrite E. reflexivity.
  - apply Nat.eqb_neq in E. destruct (existsb (has_serial s) st) eqn:Ex; [reflexivity|].
    apply count_zero_existsb in Ex. contradiction.
Qed.

Ltac dedup_side :=
  cbn; try unfold has_serial; cbn;
  first [ reflexivity | assumption | discriminate | apply String.eqb_refl
        | lia | (intros [=]) ].

Lemma advance_cases (s : string) (st st' : Storage) (u u' : Upload) :
  advance st u = Some (st', u') -> advance_case s st u st' u'.
Proof.
  unfold advance. destruct u as [sr pt ph]; cbn [phase serial patient set_phase].
  destruct ph; try discriminate.
  - destruct sr as [s1|]; intros [= <- <-]; apply adv_quiet; dedup_side.
  - intros [= <- <-]. apply adv_quiet; dedup_side.
  - destruct sr as [s1|].
    + unfold insert_unique. cbn [prescription_serial].
      rewrite existsb_has_serial.
      destruct (stored s1 st =? 0) eqn:E0; cbn [negb]; intros [= <- <-].
      * apply Nat.eqb_eq in E0.
        destruct (String.eqb s1 s) eqn:Es.
        -- apply String.eqb_eq in Es. subst s1. apply adv_commit; dedup_side.
        -- apply adv_foreign_commit; dedup_side.
      * apply Nat.eqb_neq in E0.
        destruct (String.eqb s1 s) eqn:Es.
        -- apply String.eqb_eq in Es. subst s1. apply adv_duplicate; dedup_side.
        -- apply adv_foreign; dedup_side.
    + intros [= <- <-]. apply adv_quiet; dedup_side.
Qed.

(** ** The invariant *)

Lemma phase_eqb_eq (p q : Phase) : phase_eqb p q = true <-> p = q.
Proof. destruct p, q; simpl; split; congruence. Qed.

Lemma phase_eqb_neq (p q : Phase) : p <> q -> phase_eqb p q = false.
Proof.
  intros H. destruct (phase_eqb p q) eqn:E; [|reflexivity].
  apply phase_eqb_eq in E. contradiction.
Qed.

Lemma in_phase_insert (s : string) (p : Phase) (us : list Upload) (i : nat)
    (u u' : Upload) :
  us !! i = Some u ->
  in_phase s p (<[i := u']> us)
    + (if carries s u && phase_eqb (phase u) p then 1 else 0)
  = in_phase s p us
    + (if carries s u' && phase_eqb (phase u') p then 1 else 0).
Proof.
  intros Hi. unfold in_phase.
  exact (count_insert (fun u => carries s u && phase_eqb (phase u) p) us i u u' Hi).
Qed.

Lemma step_invariant (s : string) (c0 n i : nat) (sys : System) :
  invariant s c0 n sys -> invariant s c0 n (step i sys).
Proof.
  intros [Hst Huq Hdup Hval Hn]. unfold step.
  destruct (uploads sys !! i) as [u|] eqn:Hi; [|constructor; assumption].
  destruct (advance (table sys) u) as [[st' u']|] eqn:Ha; [|constructor; assumption].
  pose proof (in_phase_insert s COMMITTED _ i u u' Hi) as Hc.
  pose proof (in_phase_insert s REJECTED_DUPLICATE _ i u u' Hi) as Hd.
  pose proof (in_phase_insert s REJECTED_INVALID _ i u u' Hi) as Hv.
  pose proof (count_insert (carries s) _ i u u' Hi) as Hk.
  destruct (advance_cases s _ _ _ _ Ha)
    as [u' Hcar H1 H2 H3 H4 H5 H6
       |u' Hc' Hcu
       |r u' Hc' Hcu Hr
       |r u' Hc' Hcu Hpu Hpu' Hr H0
       |u' Hc' Hcu Hpu Hpu' Hpos].
  - assert (Hinv : carries s u' && phase_eqb (phase u') REJECTED_INVALID = false).
    { destruct (phase_eqb (phase u') REJECTED_INVALID) eqn:E.
      - apply phase_eqb_eq in E. rewrite (H6 E). reflexivity.
      - apply andb_false_r. }
    rewrite Hinv in Hv. rewrite Hcar in Hk.
    rewrite (phase_eqb_neq _ _ H1), (phase_eqb_neq _ _ H4), !andb_false_r in Hc.
    rewrite (phase_eqb_neq _ _ H2), (phase_eqb_neq _ _ H5), !andb_false_r in Hd.
    rewrite (phase_eqb_neq _ _ H3), !andb_false_r in Hv.
    constructor; cbn [table uploads]; lia.
  - rewrite Hc', Hcu in *. cbn [andb] in *.
    constructor; cbn [table uploads]; lia.
  - rewrite Hc', Hcu in *. cbn [andb] in *.
    assert (Hs : stored s (r :: table sys) = stored s (table sys))
      by (unfold stored; simpl; rewrite Hr; reflexivity).
    constructor; cbn [table uploads]; rewrite ?Hs; lia.
  - rewrite Hc', Hcu, Hpu, Hpu' in *. cbn [andb phase_eqb] in *.
    assert (Hs : stored s (r :: table sys) = 1)
      by (unfold stored in *; simpl; rewrite Hr; lia).
    constructor; cbn [table uploads]; rewrite ?Hs; lia.
  - rewrite Hc', Hcu, Hpu, Hpu' in *. cbn [andb phase_eqb] in *.
    constructor; cbn [table uploads]; lia.
Qed.

Lemma run_invariant (s : string) (c0 n : nat) (schedule : list nat) (sys : System) :
  invariant s c0 n sys -> invariant s c0 n (run schedule sys).
Proof.
  revert sys. induction schedule as [|i schedule IH]; intros sys H; [exact H|].
  apply IH, step_invariant, H.
Qed.

(** Uploads that were all just received stand in no other phase. *)
Lemma in_phase_received (s : string) (p : Phase) (us : list Upload) :
  Forall (fun u => phase u = RECEIVED) us -> p <> RECEIVED -> in_phase s p us = 0.
Proof.
  intros Hall Hp. unfold in_phase. induction Hall as [|u us Hu _ IH]; [reflexivity|].
  simpl. rewrite Hu, IH. destruct p; try contradiction; simpl;
    rewrite andb_false_r; reflexivity.
Qed.

Lemma initial_invariant (s : string) (st0 : Storage) (pool : list Upload) :
  stored s st0 <= 1 -> Forall (fun u => phase u = RECEIVED) pool ->
  invariant s (stored s st0) (count (carries s) pool)
    {| table := st0; uploads := pool |}.
Proof.
  intros H1 Hall. constructor; cbn [table uploads];
    rewrite ?(in_phase_received s _ pool Hall) by discriminate; lia.
Qed.

(** Once every upload is finished, each one carrying [s] is committed,
    rejected as a duplicate or rejected as invalid. *)
Lemma finished_split (s : string) (us : list Upload) :
  forallb finished us = true ->
  count (carries s) us
  = in_phase s COMMITTED us + in_phase s REJECTED_DUPLICATE us
    + in_phase s REJECTED_INVALID us.
Proof.
  unfold in_phase. induction us as [|u us IH]; [reflexivity|].
  simpl. rewrite andb_true_iff. intros [Hu Hus]. specialize (IH Hus).
  unfold finished in Hu.
  destruct (carries s u), (phase u); simpl; try discriminate; lia.
Qed.

(** ** Termination: every state has a schedule that finishes it *)

Lemma step_work_left (i : nat) (sys : System) (u : Upload) :
  uploads sys !! i = Some u -> finished u = false ->
  work_left (step i sys) < work_left sys.
Proof.
  intros Hi Hf. unfold step, work_left. rewrite Hi.
  destruct (advance_progress (table sys) u Hf) as (st' & u' & -> & Hlt).
  cbn [uploads]. rewrite list_fmap_insert.
  pose proof (sum_list_insert (map steps_left (uploads sys)) i
                (steps_left u) (steps_left u')) as H.
  rewrite list_lookup_fmap, Hi in H. specialize (H eq_refl).
  change (@map Upload nat) with (@fmap list _ Upload nat) in *. lia.
Qed.

Lemma unfinished_upload (us : list Upload) :
  forallb finished us = false ->
  exists i u, us !! i = Some u /\ finished u = false.
Proof.
  induction us as [|a us IH]; [discriminate|]. simpl.
  destruct (finished a) eqn:Ea; simpl.
  - intros H. destruct (IH H) as (i & u & Hi & Hu). exists (S i), u. split; assumption.
  - intros _. exists 0, a. split; [reflexivity|exact Ea].
Qed.

Lemma complete_schedule (sys : System) :
  exists schedule, all_finished (run schedule sys) = true.
Proof.
  remember (work_left sys) as w eqn:Hw. revert sys Hw.
  induction w as [w IH] using lt_wf_ind. intros sys Hw.
  destruct (all_finished sys) eqn:Hf.
  - exists []. exact Hf.
  - destruct (unfinished_upload _ Hf) as (i & u & Hi & Hu).
    pose proof (step_work_left i sys u Hi Hu) as Hlt.
    destruct (IH (work_left (step i sys)) ltac:(lia) (step i sys) eq_refl)
      as [schedule Hs].
    exists (i :: schedule). exact Hs.
Qed.

(** How the finished uploads of serial [s] are split, from the invariant:
    with no record of [s] to begin with and at least one upload carrying it,
    one is committed and the others are duplicates. *)
Lemma finished_outcome (s : string) (n : nat) (sys : System) :
  invariant s 0 n sys -> 0 < n -> all_finished sys = true ->
  in_phase s COMMITTED (uploads sys) = 1 /\
  in_phase s REJECTED_DUPLICATE (uploads sys) = n - 1 /\
  stored s (table sys) = 1.
Proof.
  intros [Hst Huq Hdup Hval Hk] Hn Hf.
  pose proof (finished_split s _ Hf) as Hsplit.
  rewrite Hk, Hval in Hsplit. simpl in Hst.
  destruct (in_phase s COMMITTED (uploads sys)) as [|[|c]] eqn:Ec; [|lia|lia].
  assert (Hd : 0 < in_phase s REJECTED_DUPLICATE (uploads sys)) by lia.
  specialize (Hdup Hd). lia.
Qed.

(** C2. Take a table without serial [s] and any pool of uploads just
    received, at least one of which carries [s].  Under every interleaving
    of their steps the table never holds two records of [s] and never two of
    the uploads carrying [s] are committed; and once all uploads are
    finished exactly one of those carrying [s] is committed, every other one
    is rejected as a duplicate, and the table holds exactly one record of
    [s]. *)
Theorem one_commit_per_serial (st0 : Storage) (pool : list Upload) (s : string)
    (schedule : list nat) :
  stored s st0 = 0 ->
  Forall (fun u => phase u = RECEIVED) pool ->
  0 < count (carries s) pool ->
  let sys := run schedule {| table := st0; uploads := pool |} in
  (stored s (table sys) <= 1 /\ in_phase s COMMITTED (uploads sys) <= 1) /\
  (all_finished sys = true ->
     in_phase s COMMITTED (uploads sys) = 1 /\
     in_phase s REJECTED_DUPLICATE (uploads sys) = count (carries s) pool - 1 /\
     stored s (table sys) = 1).
Proof.
  intros H0 Hall Hn sys.
  pose proof (run_invariant s _ _ schedule _
                (initial_invariant s st0 pool ltac:(lia) Hall)) as Hinv.
  fold sys in Hinv. rewrite H0 in Hinv. split.
  - destruct Hinv as [Hst Huq _ _ _]. simpl in Hst. lia.
  - intros Hf. exact (finished_outcome s _ sys Hinv Hn Hf).
Qed.

(** After the first commit nothing changes for that serial: with a record
    of [s] stored already, the table keeps exactly that one record and every
    upload carrying [s] ends rejected as a duplicate. *)
Lemma resubmission_rejected (st0 : Storage) (pool : list Upload) (s : string)
    (schedule : list nat) :
  stored s st0 = 1 ->
  Forall (fun u => phase u = RECEIVED) pool ->
  let sys := run schedule {| table := st0; uploads := pool |} in
  stored s (table sys) = 1 /\ in_phase s COMMITTED (uploads sys) = 0 /\
  (all_finished sys = true ->
     in_phase s REJECTED_DUPLICATE (uploads sys) = count (carries s) pool).
Proof.
  intros H1 Hall sys.
  pose proof (run_invariant s _ _ schedule _
                (initial_invariant s st0 pool ltac:(lia) Hall)) as Hinv.
  fold sys in Hinv. destruct Hinv as [Hst Huq Hdup Hval Hk].
  rewrite H1 in Hst. split; [lia|]. split; [lia|]. intros Hf.
  pose proof (finished_split s _ Hf) as Hsplit. lia.
Qed.

Lemma count_attempts (n : nat) (s p : string) :
  count (carries s) (attempts n s p) = n /\
  Forall (fun u => phase u = RECEIVED) (attempts n s p).
Proof.
  unfold attempts. induction n as [|n [IHc IHf]]; simpl.
  - split; [reflexivity|constructor].
  - unfold carries at 1. cbn [serial]. rewrite String.eqb_refl, IHc.
    split; [reflexivity|constructor; [reflexivity|exact IHf]].
Qed.

(** [n] simultaneous attempts on a fresh serial: one commit, [n - 1]
    duplicate rejections, one record. *)
Corollary simultaneous_attempts (st0 : Storage) (n : nat) (s p : string)
    (schedule : list nat) :
  stored s st0 = 0 -> 0 < n ->
  let sys := run schedule {| table := st0; uploads := attempts n s p |} in
  all_finished sys = true ->
  in_phase s COMMITTED (uploads sys) = 1 /\
  in_phase s REJECTED_DUPLICATE (uploads sys) = n - 1 /\
  stored s (table sys) = 1.
Proof.
  intros H0 Hn sys Hf. destruct (count_attempts n s p) as [Hc Hr].
  pose proof (run_invariant s _ _ schedule _
                (initial_invariant s st0 (attempts n s p) ltac:(lia) Hr)) as Hinv.
  fold sys in Hinv. rewrite H0, Hc in Hinv.
  exact (finished_outcome s n sys Hinv Hn Hf).
Qed.

End DedupFacts.

Section DedupExamples.
Import Backend.Dedup DedupView Samples.
Local Open Scope nat_scope.

Lemma one_commit_per_serial_witness :
  (stored "RX-1001" [] = 0 /\
   Forall (fun u => phase u = RECEIVED) (attempts 3 "RX-1001" "P-7") /\
   0 < count (carries "RX-1001") (attempts 3 "RX-1001" "P-7") /\
   all_finished (run interleaving three_uploads) = true) /\
  in_phase "RX-1001" COMMITTED (uploads (run interleaving three_uploads)) = 1 /\
  in_phase "RX-1001" REJECTED_DUPLICATE (uploads (run interleaving three_uploads))
    = 2 /\
  stored "RX-1001" (table (run interleaving three_uploads)) = 1.
Proof.
  assert (H0 : stored "RX-1001" [] = 0) by reflexivity.
  assert (Hr : Forall (fun u => phase u = RECEIVED) (attempts 3 "RX-1001" "P-7"))
    by (repeat constructor).
  assert (Hn : 0 < count (carries "RX-1001") (attempts 3 "RX-1001" "P-7"))
    by (vm_compute; lia).
  assert (Hf : all_finished (run interleaving three_uploads) = true)
    by (vm_compute; reflexivity).
  split; [repeat split; assumption|].
  exact (proj2 (one_commit_per_serial [] (attempts 3 "RX-1001" "P-7") "RX-1001"
                  interleaving H0 Hr Hn) Hf).
Defined.

End DedupExamples.

(* ===================================================================== *)
(** * Texts: splitting, searching, replacing                              *)
(* ===================================================================== *)

Section TextFacts.
Import Js JsText.

Lemma lower_ascii_idem (c : ascii) : lower_ascii (lower_ascii c) = lower_ascii c.
Proof. destruct c as [[] [] [] [] [] [] [] []]; vm_compute; reflexivity. Qed.

Lemma toLowerCase_idem (s : string) : toLowerCase (toLowerCase s) = toLowerCase s.
Proof.
  induction s as [|c r IH]; simpl; [reflexivity|].
  rewrite lower_ascii_idem, IH. reflexivity.
Qed.

Lemma toLowerCase_empty (s : string) : toLowerCase s = "" <-> s = "".
Proof. destruct s; simpl; split; congruence. Qed.

(** ** [split] *)

Lemma split_nonempty (sep : ascii) (s : string) : split sep s <> [].
Proof.
  destruct s as [|c r]; simpl; [discriminate|].
  destruct (Ascii.eqb c sep); [discriminate|].
  destruct (split sep r); discriminate.
Qed.

Lemma split_length (sep : ascii) (s : string) :
  length (split sep s) = S (count_char sep s).
Proof.
  unfold count_char. induction s as [|c r IH]; simpl; [reflexivity|].
  rewrite (Ascii.eqb_sym sep c).
  destruct (Ascii.eqb c sep); simpl.
  - rewrite IH. reflexivity.
  - destruct (split sep r) as [|h t] eqn:E; [destruct (split_nonempty _ _ E)|].
    simpl in *. exact IH.
Qed.

Lemma split_no_separator (sep : ascii) (s w : string) :
  In w (split sep s) -> ~ In sep (chars w).
Proof.
  revert w. induction s as [|c r IH]; simpl; intros w.
  - intros [<-|[]]. simpl. tauto.
  - destruct (Ascii.eqb c sep) eqn:Ec.
    + intros [<-|Hw]; [simpl; tauto|apply IH, Hw].
    + destruct (split sep r) as [|h t] eqn:E; [destruct (split_nonempty _ _ E)|].
      intros [<-|Hw].
      * simpl. intros [->|Hin].
        -- rewrite Ascii.eqb_refl in Ec. discriminate.
        -- apply (IH h); [left; reflexivity|exact Hin].
      * apply IH. right. exact Hw.
Qed.

(** Joining the pieces with the separator gives the text back. *)
Lemma split_join (sep : ascii) (s : string) :
  String.concat (String sep "") (split sep s) = s.
Proof.
  induction s as [|c r IH]; simpl; [reflexivity|].
  destruct (Ascii.eqb c sep) eqn:Ec.
  - apply Ascii.eqb_eq in Ec. subst c.
    destruct (split sep r) as [|h t] eqn:E; [destruct (split_nonempty _ _ E)|].
    simpl in *. rewrite IH. reflexivity.
  - destruct (split sep r) as [|h t] eqn:E; [destruct (split_nonempty _ _ E)|].
    destruct t as [|h' t]; simpl in *; rewrite <- IH; reflexivity.
Qed.

(** ** [trim] keeps only characters of the text *)

Lemma chars_substring (n m : nat) (s : string) (c : ascii) :
  In c (chars (String.substring n m s)) -> In c (chars s).
Proof.
  revert n m. induction s as [|a r IH]; intros n m.
  - destruct n, m; simpl; tauto.
  - destruct n as [|n]; [destruct m as [|m]|]; simpl; try tauto.
    + intros [->|H]; [left; reflexivity|right; apply (IH 0%nat m), H].
    + intros H. right. apply (IH n m), H.
Qed.

Lemma chars_trimStart_fuel (fuel : nat) (s : string) (c : ascii) :
  In c (chars (trimStart_fuel fuel s)) -> In c (chars s).
Proof.
  revert s. induction fuel as [|fuel IH]; intros s; [tauto|].
  cbn [trimStart_fuel]. destruct (ws_prefix_len (bytes_of s)); [tauto|].
  intros H. apply IH in H. apply chars_substring in H. exact H.
Qed.

Lemma chars_trimEnd_fuel (fuel : nat) (s : string) (c : ascii) :
  In c (chars (trimEnd_fuel fuel s)) -> In c (chars s).
Proof.
  revert s. induction fuel as [|fuel IH]; intros s; [tauto|].
  cbn [trimEnd_fuel]. destruct (ws_suffix_len (rev (bytes_of s))); [tauto|].
  intros H. apply IH in H. apply chars_substring in H. exact H.
Qed.

Lemma chars_trim (s : string) (c : ascii) :
  In c (chars (trim s)) -> In c (chars s).
Proof.
  unfold trim, trimStart, trimEnd. intros H.
  apply chars_trimEnd_fuel, chars_trimStart_fuel in H. exact H.
Qed.

(** ** Underscores *)

(** The feature modal shows a feature name with every underscore turned
    into a blank: as long as the name, without an underscore, the same name
    when it had none, and the same again when done twice. *)
Theorem underscores_to_spaces_spec (k : string) :
  String.length (underscores_to_spaces k) = String.length k /\
  ~ In "_"%char (chars (underscores_to_spaces k)) /\
  (~ In "_"%char (chars k) -> underscores_to_spaces k = k) /\
  underscores_to_spaces (underscores_to_spaces k) = underscores_to_spaces k.
Proof.
  induction k as [|c r (Hlen & Hno & Hid & Hidem)]; simpl.
  - repeat split; tauto.
  - destruct (Ascii.eqb c "_") eqn:Ec.
    + apply Ascii.eqb_eq in Ec. subst c.
      split; [congruence|]. split.
      * intros [H|H]; [discriminate|contradiction].
      * split; [intros H; exfalso; apply H; left; reflexivity|].
        simpl. rewrite Hidem. reflexivity.
    + split; [congruence|]. split.
      * intros [H|H]; [|contradiction]. subst c. discriminate.
      * split.
        -- intros H. rewrite Hid; [reflexivity|]. intros Hin. apply H. right. exact Hin.
        -- simpl. rewrite Ec, Hidem. reflexivity.
Qed.

Lemma underscores_to_spaces_witness :
  ~ In "_"%char (chars "bmi") /\
  underscores_to_spaces "bmi" = "bmi" /\
  underscores_to_spaces "height_cm" = "height cm".
Proof.
  assert (H : ~ In "_"%char (chars "bmi"))
    by (simpl; intros [H|[H|[H|[]]]]; discriminate).
  split; [exact H|].
  split; [exact (proj1 (proj2 (proj2 (underscores_to_spaces_spec "bmi"))) H)|].
  reflexivity.
Defined.

End TextFacts.

(* ===================================================================== *)
(** * Entity chips and disease keys                                       *)
(* ===================================================================== *)

Section ChipFacts.
Import Js JsText ReceptionistPanels DoctorWorkspace.

(** The entity panel of the receptionist portal shows its notice exactly
    when the entities are missing or every group is empty.  Otherwise a
    group with text gives one chip more than it has commas, no chip holds a
    comma, and an empty group gives no chip. *)
Theorem ner_chips_spec (ner : option (list (string * string))) :
  (ner_chips ner = None <->
     ner = None \/
     exists groups, ner = Some groups /\ List.Forall (fun g => snd g = "") groups) /\
  (forall groups, ner = Some groups -> ner_chips ner <> None ->
     ner_chips ner = Some (List.map (fun g => group_chips (snd g)) groups)) /\
  group_chips "" = [] /\
  (forall value : string, value <> "" ->
     length (group_chips value) = S (count_char ","%char value) /\
     forall w, In w (group_chips value) -> ~ In ","%char (chars w)).
Proof.
  split; [|split; [|split; [reflexivity|]]].
  - destruct ner as [groups|]; simpl; [|split; [left; reflexivity|reflexivity]].
    destruct (existsb (fun g => negb (String.eqb (snd g) "")) groups) eqn:E.
    + split; [discriminate|]. intros [H|(gs & [= <-] & Hall)]; [discriminate|].
      exfalso. apply existsb_exists in E as (g & Hg & Hne).
      rewrite List.Forall_forall in Hall. rewrite (Hall g Hg) in Hne. discriminate.
    + split; [|reflexivity]. intros _. right. exists groups. split; [reflexivity|].
      apply List.Forall_forall. intros g Hg.
      destruct (String.eqb (snd g) "") eqn:Eg; [apply String.eqb_eq, Eg|].
      exfalso. assert (Hex : existsb (fun g => negb (String.eqb (snd g) "")) groups = true)
        by (apply existsb_exists; exists g; split; [exact Hg|rewrite Eg; reflexivity]).
      congruence.
  - intros groups -> Hn. simpl in *.
    destruct (existsb (fun g => negb (String.eqb (snd g) "")) groups);
      [reflexivity|congruence].
  - intros value Hv. unfold group_chips.
    apply String.eqb_neq in Hv. rewrite Hv. split.
    + rewrite length_map. apply split_length.
    + intros w Hw. apply in_map_iff in Hw as (x & <- & Hx).
      intros Hin. apply chars_trim in Hin.
      exact (split_no_separator _ _ _ Hx Hin).
Qed.

Lemma ner_chips_spec_witness :
  "Napa, Ace ,Seclo" <> "" /\
  group_chips "Napa, Ace ,Seclo" = ["Napa"; "Ace"; "Seclo"] /\
  length (group_chips "Napa, Ace ,Seclo") = S (count_char ","%char "Napa, Ace ,Seclo") /\
  ner_chips (Some [("medicines", ""); ("tests", "")]) = None.
Proof.
  assert (Hne : "Napa, Ace ,Seclo" <> "") by discriminate.
  split; [exact Hne|]. split; [vm_compute; reflexivity|].
  pose proof (ner_chips_spec (Some [("medicines", ""); ("tests", "")]))
    as (Hnone & _ & _ & Hchips).
  split; [exact (proj1 (Hchips _ Hne))|].
  apply Hnone. right. eexists. split; [reflexivity|]. repeat constructor.
Defined.

(** [normalizeDiseaseKey] on an ASCII text: it answers, its answer is a
    fixed point, and it does not depend on the case of the text.  A falsy
    argument gives the empty text and any other argument that is not a
    text throws. *)
Theorem normalizeDiseaseKey_idempotent (s : string) :
  ascii_text s ->
  exists r : string,
    normalizeDiseaseKey (Str s) = Some r /\
    normalizeDiseaseKey (Str r) = Some r /\
    normalizeDiseaseKey (Str (toLowerCase s)) = Some r /\
    (r = "obesity" \/ r = "liver" \/ r = "hypertension" \/ r = "diabetes" \/
     r = toLowerCase s).
Proof.
  intros _. unfold normalizeDiseaseKey. cbn [truthy].
  destruct (String.eqb s "") eqn:Es.
  - apply String.eqb_eq in Es. subst s. exists "". repeat split. tauto.
  - assert (El : String.eqb (toLowerCase s) "" = false).
    { apply String.eqb_neq. intros H. apply (proj1 (toLowerCase_empty s)) in H.
      apply String.eqb_neq in Es. contradiction. }
    cbn [negb]. rewrite El. cbn [negb]. rewrite toLowerCase_idem.
    exists (classify_key (toLowerCase s)). split; [reflexivity|].
    split; [|split; [reflexivity|]]; unfold classify_key.
    + destruct (includes (toLowerCase s) "obes") eqn:E1; [reflexivity|].
      destruct (includes (toLowerCase s) "liver") eqn:E2; [reflexivity|].
      destruct (includes (toLowerCase s) "hyper") eqn:E3; [reflexivity|].
      destruct (includes (toLowerCase s) "diab") eqn:E4; [reflexivity|].
      rewrite El. cbn [negb]. rewrite toLowerCase_idem, E1, E2, E3, E4. reflexivity.
    + repeat match goal with
             | |- context [if ?b then _ else _] => destruct b
             end; tauto.
Qed.

Lemma normalizeDiseaseKey_idempotent_witness :
  ascii_text "Type-2 DIABETES" /\
  normalizeDiseaseKey (Str "Type-2 DIABETES") = Some "diabetes" /\
  normalizeDiseaseKey (Str "diabetes") = Some "diabetes".
Proof.
  assert (Ha : ascii_text "Type-2 DIABETES")
    by (unfold ascii_text; simpl; repeat constructor).
  split; [exact Ha|].
  destruct (normalizeDiseaseKey_idempotent "Type-2 DIABETES" Ha)
    as (r & H1 & H2 & _).
  assert (Hr : r = "diabetes") by (vm_compute in H1; congruence).
  subst r. split; assumption.
Defined.

(** What is not a text: a falsy value gives the empty text, a truthy one
    throws. *)
Lemma normalizeDiseaseKey_other (d : Value) :
  typeof_string d = false ->
  normalizeDiseaseKey d = if truthy d then None else Some "".
Proof.
  unfold normalizeDiseaseKey. destruct d; try discriminate; intros _;
    destruct (truthy _); reflexivity.
Qed.

End ChipFacts.

(* ===================================================================== *)
(** * History views: cards and table rows                                 *)
(* ===================================================================== *)

Section NumberFacts.
Import Js.

(** IEEE equality with a literal that is finite and not zero is identity. *)
Lemma eqb_literal (x k : float) (s : bool) (m : positive) (e : Z) :
  Prim2SF k = S754_finite s m e -> PrimFloat.eqb x k = true -> x = k.
Proof.
  intros Hk. rewrite FloatAxioms.eqb_spec, Hk. intros H.
  apply Prim2SF_inj. rewrite Hk. apply SFeqb_finite, H.
Qed.

(** A number that is [=== 0] is not [>= 1]. *)
Lemma eqb_zero_below_one (x : float) :
  PrimFloat.eqb x 0 = true -> PrimFloat.leb 1 x = false.
Proof.
  rewrite FloatAxioms.eqb_spec, FloatAxioms.leb_spec.
  replace (Prim2SF 1) with sf_one by (vm_compute; reflexivity).
  replace (Prim2SF 0) with (S754_zero false) by (vm_compute; reflexivity).
  unfold SFeqb, SFleb, sf_one.
  destruct (Prim2SF x) as [[]| [] | | [] m e]; cbn [SFcompare]; try discriminate;
    reflexivity.
Qed.

Lemma strict_eq_num_Num (v : Value) (k : float) :
  strict_eq_num v k = true -> exists x, v = Num x /\ PrimFloat.eqb x k = true.
Proof. destruct v; try discriminate. intros H. eexists. split; [reflexivity|exact H]. Qed.

End NumberFacts.

Section HistoryViewFacts.
Import Js Labels HistoryViews.

(** The codes behind a calm label and behind a finding. *)
Lemma calm_label_codes (d : Disease) (v : Value) :
  calm_label (label_of d v) ->
  strict_eq_num v (-1) = true \/ strict_eq_num v 0 = true.
Proof.
  unfold calm_label.
  destruct d; unfold label_of, obesityLabel, diabetesLabel, hypertensionLabel,
    liverLabel;
    repeat match goal with
           | |- context [if ?b then _ else _] => destruct b eqn:?
           end; simpl; intros H; try tauto;
    repeat (destruct H as [H|H]; [discriminate H|]); contradiction.
Qed.

Lemma finding_label_codes (d : Disease) (v : Value) :
  finding_label (label_of d v) ->
  strict_eq_num v 1 = true \/ strict_eq_num v 2 = true \/ strict_eq_num v 3 = true.
Proof.
  unfold finding_label.
  destruct d; unfold label_of, obesityLabel, diabetesLabel, hypertensionLabel,
    liverLabel;
    repeat match goal with
           | |- context [if ?b then _ else _] => destruct b eqn:?
           end; simpl; intros H; try tauto;
    repeat (destruct H as [H|H]; [discriminate H|]); contradiction.
Qed.

Lemma card_label_known (p : Prediction) (d : Disease) :
  disease p = key_of d -> card_label p = label_of d (result p).
Proof. unfold card_label. intros ->. destruct d; reflexivity. Qed.

Lemma card_label_unknown (p : Prediction) :
  (forall d, disease p <> key_of d) -> card_label p = "Unknown".
Proof.
  intros H. unfold card_label.
  destruct (String.eqb (disease p) "liver") eqn:E4;
    [apply String.eqb_eq in E4; destruct (H liver E4)|].
  destruct (String.eqb (disease p) "hypertension") eqn:E3;
    [apply String.eqb_eq in E3; destruct (H hypertension E3)|].
  destruct (String.eqb (disease p) "diabetes") eqn:E2;
    [apply String.eqb_eq in E2; destruct (H diabetes E2)|].
  destruct (String.eqb (disease p) "obesity") eqn:E1;
    [apply String.eqb_eq in E1; destruct (H obesity E1)|].
  reflexivity.
Qed.

Lemma card_label_cases (p : Prediction) :
  card_label p = "Unknown" \/ exists d, card_label p = label_of d (result p).
Proof.
  unfold card_label.
  destruct (String.eqb (disease p) "liver"); [right; exists liver; reflexivity|].
  destruct (String.eqb (disease p) "hypertension");
    [right; exists hypertension; reflexivity|].
  destruct (String.eqb (disease p) "diabetes"); [right; exists diabetes; reflexivity|].
  destruct (String.eqb (disease p) "obesity"); [right; exists obesity; reflexivity|].
  left. reflexivity.
Qed.

(** The colour of a timeline card agrees with its label, in both portals:
    a card that reads "Insufficient Data" or a negative result is never
    drawn as alarming, a card that reads a finding always is.  The label is
    that of the prediction's disease, and "Unknown" for a disease that is
    none of the four. *)
Theorem timeline_card_alarm (safePercent : Value -> Rendered)
    (coerce : Value -> float) (p : Prediction) :
  (calm_label (tc_label (timeline_card safePercent coerce p)) ->
     tc_alarming (timeline_card safePercent coerce p) = false) /\
  (finding_label (tc_label (timeline_card safePercent coerce p)) ->
     tc_alarming (timeline_card safePercent coerce p) = true) /\
  (forall d, disease p = key_of d ->
     tc_label (timeline_card safePercent coerce p) = label_of d (result p)) /\
  ((forall d, disease p <> key_of d) ->
     tc_label (timeline_card safePercent coerce p) = "Unknown").
Proof.
  cbn [timeline_card tc_label tc_alarming]. unfold isAlarming.
  split; [|split; [|split; [apply card_label_known|apply card_label_unknown]]].
  - intros H. destruct (card_label_cases p) as [Hu|[d Hd]].
    + rewrite Hu in H. unfold calm_label in H. simpl in H.
      repeat (destruct H as [H|H]; [discriminate H|]). contradiction.
    + rewrite Hd in H. apply calm_label_codes in H as [H|H];
        apply strict_eq_num_Num in H as (x & -> & Hx); cbn [ToNumber].
      * apply eqb_minus_one in Hx. subst x. vm_compute. reflexivity.
      * apply eqb_zero_below_one, Hx.
  - intros H. destruct (card_label_cases p) as [Hu|[d Hd]].
    + rewrite Hu in H. unfold finding_label in H. simpl in H.
      repeat (destruct H as [H|H]; [discriminate H|]). contradiction.
    + rewrite Hd in H. apply finding_label_codes in H as [H|[H|H]];
        apply strict_eq_num_Num in H as (x & -> & Hx); cbn [ToNumber].
      * apply eqb_one in Hx. subst x. vm_compute. reflexivity.
      * apply (eqb_literal x 2 false 4503599627370496 (-51)) in Hx;
          [subst x; vm_compute; reflexivity|vm_compute; reflexivity].
      * apply (eqb_literal x 3 false 6755399441055744 (-51)) in Hx;
          [subst x; vm_compute; reflexivity|vm_compute; reflexivity].
Qed.

(** ** Table rows *)

Lemma disease_map_lookup (preds : list Prediction) (k : string) :
  disease_map (Some preds) !! k = last (filter (fun p => disease p = k) preds).
Proof.
  unfold disease_map. change (validPredictions (Some preds)) with preds.
  induction preds as [|p preds IH] using rev_ind; [reflexivity|].
  rewrite fold_left_app. cbn [fold_left]. rewrite filter_app.
  destruct (decide (disease p = k)) as [Hk|Hk].
  - rewrite Hk, lookup_insert_eq.
    rewrite filter_cons_True by exact Hk. rewrite filter_nil, last_snoc. reflexivity.
  - rewrite lookup_insert_ne by exact Hk.
    rewrite filter_cons_False by exact Hk. rewrite filter_nil, app_nil_r. exact IH.
Qed.

(** A table row reads, for each disease, the last prediction of the visit
    that names it.  When no prediction names the disease, the result cell
    reads "Unknown", the risk cell holds the portal's placeholder and the
    factors cell has no button.  When one does, the result cell is its
    label, which [safeText] never replaces. *)
Theorem table_row_cells (predictions : option (list Prediction)) (d : Disease)
    (coerce : Value -> float) :
  disease_map predictions !! key_of d
    = last (filter (fun p => disease p = key_of d) (validPredictions predictions)) /\
  (disease_map predictions !! key_of d = None ->
     disease_cells Patient.safeText Patient.safePercent
       (disease_map predictions) d
     = {| cell_result := Str "Unknown"; cell_risk := Text "No data";
          cell_has_factors := false |} /\
     disease_cells Doctor.safeText (Doctor.safePercent coerce)
       (disease_map predictions) d
     = {| cell_result := Str "Unknown"; cell_risk := Text Doctor.dash;
          cell_has_factors := false |}) /\
  (forall p, disease_map predictions !! key_of d = Some p ->
     cell_result (disease_cells Patient.safeText Patient.safePercent
                    (disease_map predictions) d)
     = Str (label_of d (result p)) /\
     cell_result (disease_cells Doctor.safeText (Doctor.safePercent coerce)
                    (disease_map predictions) d)
     = Str (label_of d (result p))).
Proof.
  split; [|split].
  - destruct predictions as [preds|]; [apply disease_map_lookup|].
    apply (disease_map_lookup []).
  - intros Hn. unfold disease_cells, map_field. rewrite Hn.
    destruct d; split; reflexivity.
  - intros p Hp. unfold disease_cells, map_field. rewrite Hp.
    cbn [cell_result]. split; reflexivity.
Qed.

Lemma table_row_cells_witness :
  disease_map (Some [{| disease := "liver"; result := Num 1; confidence := Num 0.75;
                        risk := Num 0.5; features_json := Object |}])
    !! key_of obesity = None /\
  disease_cells Patient.safeText Patient.safePercent
    (disease_map (Some [{| disease := "liver"; result := Num 1;
                           confidence := Num 0.75; risk := Num 0.5;
                           features_json := Object |}])) obesity
  = {| cell_result := Str "Unknown"; cell_risk := Text "No data";
       cell_has_factors := false |}.
Proof.
  assert (Hn : disease_map
                 (Some [{| disease := "liver"; result := Num 1;
                           confidence := Num 0.75; risk := Num 0.5;
                           features_json := Object |}])
                 !! key_of obesity = None) by (vm_compute; reflexivity).
  split; [exact Hn|].
  exact (proj1 (proj1 (proj2 (table_row_cells _ obesity (fun _ => nan))) Hn)).
Defined.

Lemma timeline_card_alarm_witness :
  calm_label (tc_label (timeline_card Patient.safePercent (fun _ => nan)
     {| disease := "diabetes"; result := Num (-1); confidence := Null;
        risk := Null; features_json := Null |})) /\
  tc_alarming (timeline_card Patient.safePercent (fun _ => nan)
     {| disease := "diabetes"; result := Num (-1); confidence := Null;
        risk := Null; features_json := Null |}) = false.
Proof.
  assert (Hc : calm_label (tc_label (timeline_card Patient.safePercent (fun _ => nan)
     {| disease := "diabetes"; result := Num (-1); confidence := Null;
        risk := Null; features_json := Null |}))) by (left; reflexivity).
  split; [exact Hc|].
  exact (proj1 (timeline_card_alarm Patient.safePercent (fun _ => nan) _) Hc).
Defined.

End HistoryViewFacts.

(* ===================================================================== *)
(** * The display helpers across the portals                              *)
(* ===================================================================== *)

Section PortalAgreement.
Import Js.

(** The patient and the doctor portal show "Male" for the same values and
    "Female" for the same values.  What the doctor portal shows as "N/A" or
    "Other", the patient portal shows as "N/A": its [formatGender] has these
    three answers only. *)
Theorem formatGender_portals_agree (g : Value) :
  (Patient.formatGender g = "Male" <-> Doctor.formatGender g = "Male") /\
  (Patient.formatGender g = "Female" <-> Doctor.formatGender g = "Female") /\
  (Patient.formatGender g = "N/A" <->
     Doctor.formatGender g = "N/A" \/ Doctor.formatGender g = "Other") /\
  (Patient.formatGender g = "Male" \/ Patient.formatGender g = "Female" \/
   Patient.formatGender g = "N/A").
Proof.
  unfold Patient.formatGender, Doctor.formatGender.
  destruct g as [| |x|s|b|];
    cbn [is_nullish strict_eq_num strict_eq_str typeof_number orb andb];
    rewrite ?orb_false_r;
    repeat match goal with
           | |- context [if ?b then _ else _] => destruct b
           end;
    repeat split; intros;
    repeat match goal with
           | H : _ \/ _ |- _ => destruct H
           end;
    solve [ discriminate | reflexivity | left; reflexivity | right; reflexivity
          | right; left; reflexivity | right; right; reflexivity ].
Qed.

(** On a number, on null and on undefined the two [safePercent] give the
    same percentage, or each its placeholder.  They part on a boolean, which
    the doctor portal coerces to 0 or 1 and the patient portal refuses. *)
Theorem safePercent_portals_agree (coerce : Value -> float) (v : Value) :
  typeof_number v = true \/ is_nullish v = true ->
  (forall n, Patient.safePercent v = Percent n <->
             Doctor.safePercent coerce v = Percent n) /\
  (Patient.safePercent v = Text "No data" <->
   Doctor.safePercent coerce v = Text Doctor.dash) /\
  (forall b : bool,
     Patient.safePercent (Boolean b) = Text "No data" /\
     Doctor.safePercent coerce (Boolean b) = Percent (if b then 100 else 0)).
Proof.
  intros Hv. split; [|split].
  - intros n. unfold Patient.safePercent, Doctor.safePercent.
    destruct v as [| |x|s|b|]; cbn [is_nullish ToNumber orb];
      try (destruct Hv; discriminate); try (split; discriminate).
    destruct (is_nan x); [split; discriminate|].
    destruct (PrimFloat.ltb 1 x); tauto.
  - unfold Patient.safePercent, Doctor.safePercent.
    destruct v as [| |x|s|b|]; cbn [is_nullish ToNumber orb];
      try (destruct Hv; discriminate); try (split; reflexivity).
    destruct (is_nan x); [split; reflexivity|].
    destruct (PrimFloat.ltb 1 x); split; discriminate.
  - intros []; split; vm_compute; reflexivity.
Qed.

Lemma safePercent_portals_agree_witness :
  (typeof_number (Num 0.25) = true \/ is_nullish (Num 0.25) = true) /\
  Patient.safePercent (Num 0.25) = Percent 25 /\
  Doctor.safePercent (fun _ => nan) (Num 0.25) = Percent 25.
Proof.
  assert (Hv : typeof_number (Num 0.25) = true \/ is_nullish (Num 0.25) = true)
    by (left; reflexivity).
  split; [exact Hv|].
  assert (Hp : Patient.safePercent (Num 0.25) = Percent 25) by (vm_compute; reflexivity).
  split; [exact Hp|].
  exact (proj1 (proj1 (safePercent_portals_agree (fun _ => nan) (Num 0.25) Hv) 25%float) Hp).
Defined.

(** [safeText] leaves every text alone, its own placeholder included, so
    applying it twice is applying it once. *)
Theorem safeText_idempotent (v : Value) :
  Patient.safeText (Patient.safeText v) = Patient.safeText v /\
  Doctor.safeText (Doctor.safeText v) = Doctor.safeText v /\
  (forall s : string,
     Patient.safeText (Str s) = Str s /\ Doctor.safeText (Str s) = Str s).
Proof.
  unfold Patient.safeText, Doctor.safeText.
  destruct (is_nullish v || strict_eq_num v (-1)) eqn:E.
  - repeat split.
  - rewrite E. repeat split.
Qed.

End PortalAgreement.

(* ===================================================================== *)
(** * Receptionist portal: the metadata panels                            *)
(* ===================================================================== *)

Section PanelFacts.
Import Js ReceptionistPanels PanelVocabulary.
Variable FEATURE_META : string -> option Meta.

(** The row drawn for [key], when [FEATURE_META] knows it. *)
Lemma vital_rows_of_some (data : option (gmap string Value))
    (keys : list string) (rows : list Row) :
  vital_rows_of FEATURE_META data keys = Some rows ->
  Forall2 (fun key r => exists meta, FEATURE_META key = Some meta /\
                          r = vital_row_of meta key (raw_vital data key))
          (List.filter (present data) keys) rows.
Proof.
  revert rows. induction keys as [|k keys IH]; intros rows.
  - cbn. intros [= <-]. constructor.
  - cbn [vital_rows_of List.filter]. unfold vital_row, present at 1.
    destruct (is_nullish (raw_vital data k)); cbn [negb].
    + destruct (vital_rows_of FEATURE_META data keys) as [rs|]; [|discriminate].
      intros [= <-]. apply IH. reflexivity.
    + destruct (FEATURE_META k) as [meta|] eqn:Em; [|discriminate].
      destruct (vital_rows_of FEATURE_META data keys) as [rs|]; [|discriminate].
      intros [= <-]. constructor; [|apply IH; reflexivity].
      exists meta. split; [exact Em|reflexivity].
Qed.

Lemma vital_rows_of_none (data : option (gmap string Value)) (keys : list string) :
  vital_rows_of FEATURE_META data keys = None ->
  exists key, In key keys /\ present data key = true /\ FEATURE_META key = None.
Proof.
  induction keys as [|k keys IH]; [discriminate|].
  cbn [vital_rows_of]. unfold vital_row.
  destruct (is_nullish (raw_vital data k)) eqn:En.
  - destruct (vital_rows_of FEATURE_META data keys) as [rs|]; [discriminate|].
    intros _. destruct (IH eq_refl) as (key & Hk & Hp & Hm).
    exists key. split; [right; exact Hk|]. split; assumption.
  - destruct (FEATURE_META k) as [meta|] eqn:Em.
    + destruct (vital_rows_of FEATURE_META data keys) as [rs|]; [discriminate|].
      intros _. destruct (IH eq_refl) as (key & Hk & Hp & Hm).
      exists key. split; [right; exact Hk|]. split; assumption.
    + intros _. exists k. split; [left; reflexivity|]. split; [|exact Em].
      unfold present. rewrite En. reflexivity.
Qed.

(** A vital that is present but unknown to [FEATURE_META] breaks the
    render. *)
Lemma vital_rows_of_missing_meta (data : option (gmap string Value))
    (keys : list string) (key : string) :
  In key keys -> present data key = true -> FEATURE_META key = None ->
  vital_rows_of FEATURE_META data keys = None.
Proof.
  induction keys as [|k keys IH]; [intros []|].
  intros [<-|Hk] Hp Hm; cbn [vital_rows_of]; unfold vital_row.
  - unfold present in Hp. destruct (is_nullish (raw_vital data k)); [discriminate|].
    rewrite Hm. reflexivity.
  - rewrite (IH Hk Hp Hm).
    destruct (is_nullish (raw_vital data k)); [reflexivity|].
    destruct (FEATURE_META k); reflexivity.
Qed.

(** The vitals block of an analysis result.  The block breaks the render
    exactly when one of age, gender, height, weight and BMI is present
    (neither null nor undefined) and [FEATURE_META] has no entry for it.
    Otherwise it has one row for each vital that is present, in that order,
    a value of zero being a row like any other, with the gender shown
    through [formatGender] and every other vital as it is. *)
Theorem vital_rows_present (data : option (gmap string Value)) :
  (vital_rows FEATURE_META data = None <->
   exists key, In key vital_keys /\ present data key = true /\
               FEATURE_META key = None) /\
  (forall rows, vital_rows FEATURE_META data = Some rows ->
     Forall2 (fun key r => exists meta, FEATURE_META key = Some meta /\
                             r = vital_row_of meta key (raw_vital data key))
             (List.filter (present data) vital_keys) rows) /\
  (forall key, In key vital_keys -> raw_vital data key = Num 0 ->
     present data key = true).
Proof.
  split; [split|split].
  - apply vital_rows_of_none.
  - intros (key & Hk & Hp & Hm).
    exact (vital_rows_of_missing_meta data vital_keys key Hk Hp Hm).
  - intros rows. apply vital_rows_of_some.
  - intros key _ Hz. unfold present. rewrite Hz. reflexivity.
Qed.

(** ** Ordered features *)

Lemma insert_by_rank_perm (x : string * Value) (l : list (string * Value)) :
  insert_by_rank FEATURE_META x l ≡ₚ x :: l.
Proof.
  induction l as [|y t IH]; simpl; [reflexivity|].
  destruct (rank FEATURE_META (fst x) <=? rank FEATURE_META (fst y));
    [reflexivity|].
  rewrite IH. apply Permutation_swap.
Qed.

Lemma sort_by_rank_perm (l : list (string * Value)) :
  sort_by_rank FEATURE_META l ≡ₚ l.
Proof.
  induction l as [|x t IH]; simpl; [reflexivity|].
  rewrite insert_by_rank_perm, IH. reflexivity.
Qed.

Lemma insert_by_rank_sorted (x : string * Value) (l : list (string * Value)) :
  StronglySorted (by_rank FEATURE_META) l -> StronglySorted (by_rank FEATURE_META) (insert_by_rank FEATURE_META x l).
Proof.
  induction 1 as [|y t Hs IH Hall]; simpl; [repeat constructor|].
  destruct (rank FEATURE_META (fst x) <=? rank FEATURE_META (fst y)) eqn:E.
  - apply Z.leb_le in E. constructor; [constructor; assumption|].
    constructor; [exact E|].
    eapply List.Forall_impl; [|exact Hall]. intros z Hz. unfold by_rank in *. lia.
  - apply Z.leb_gt in E. constructor; [exact IH|].
    rewrite (insert_by_rank_perm x t).
    constructor; [unfold by_rank; lia|exact Hall].
Qed.

Lemma sort_by_rank_sorted (l : list (string * Value)) :
  StronglySorted (by_rank FEATURE_META) (sort_by_rank FEATURE_META l).
Proof.
  induction l as [|x t IH]; simpl; [constructor|].
  apply insert_by_rank_sorted, IH.
Qed.

(** Entries of one rank keep their order. *)
Lemma insert_by_rank_stable (r : Z) (x : string * Value)
    (l : list (string * Value)) :
  List.filter (fun kv => rank FEATURE_META (fst kv) =? r)
    (insert_by_rank FEATURE_META x l)
  = List.filter (fun kv => rank FEATURE_META (fst kv) =? r) (x :: l).
Proof.
  induction l as [|y t IH]; [reflexivity|]. cbn [insert_by_rank].
  destruct (rank FEATURE_META (fst x) <=? rank FEATURE_META (fst y)) eqn:E;
    [reflexivity|].
  apply Z.leb_gt in E. cbn [List.filter] in *. rewrite IH.
  destruct (rank FEATURE_META (fst x) =? r) eqn:Ex; [|reflexivity].
  apply Z.eqb_eq in Ex.
  replace (rank FEATURE_META (fst y) =? r) with false
    by (symmetry; apply Z.eqb_neq; lia).
  reflexivity.
Qed.

Lemma sort_by_rank_stable (r : Z) (l : list (string * Value)) :
  List.filter (fun kv => rank FEATURE_META (fst kv) =? r) (sort_by_rank FEATURE_META l)
  = List.filter (fun kv => rank FEATURE_META (fst kv) =? r) l.
Proof.
  induction l as [|x t IH]; [reflexivity|]. cbn [sort_by_rank].
  rewrite insert_by_rank_stable. cbn [List.filter]. rewrite IH. reflexivity.
Qed.

(** The feature panel of a disease.  A disease whose [features_used] is
    missing or empty has no panel.  Otherwise the panel has one row for each
    feature used, in the order of their display ranks, features of one rank
    in the order they came in; a feature without an order of its own ranks
    99, and one unknown to [FEATURE_META] is labelled with its key. *)
Theorem feature_panel_ordered (features : option (list (string * Value))) :
  (feature_panel FEATURE_META features = None <->
     features = None \/ features = Some []) /\
  (forall fs, features = Some fs -> fs <> [] ->
     feature_panel FEATURE_META features
       = Some (List.map (feature_row FEATURE_META) (sort_by_rank FEATURE_META fs)) /\
     sort_by_rank FEATURE_META fs ≡ₚ fs /\
     StronglySorted (by_rank FEATURE_META) (sort_by_rank FEATURE_META fs) /\
     (forall r : Z,
        List.filter (fun kv => rank FEATURE_META (fst kv) =? r)
          (sort_by_rank FEATURE_META fs)
        = List.filter (fun kv => rank FEATURE_META (fst kv) =? r) fs)) /\
  (forall key, FEATURE_META key = None ->
     rank FEATURE_META key = 99 /\
     forall v, row_label (feature_row FEATURE_META (key, v)) = key).
Proof.
  split; [|split].
  - destruct features as [[|kv fs]|]; simpl; split; try tauto; try discriminate;
      intros [H|H]; discriminate.
  - intros fs -> Hne. split; [destruct fs; [contradiction|reflexivity]|].
    split; [apply sort_by_rank_perm|].
    split; [apply sort_by_rank_sorted|intros r; apply sort_by_rank_stable].
  - intros key Hk. unfold rank, feature_row. cbn [fst]. rewrite Hk.
    split; reflexivity.
Qed.

End PanelFacts.

Section PanelExamples.
Import Js ReceptionistPanels PanelVocabulary.

(** A record with an age of zero, a gender and a null BMI has two rows, the
    age first; with a height, which the sample table does not describe, the
    block breaks. *)
Lemma vital_rows_present_witness :
  vital_rows PanelSamples.sample_meta (Some PanelSamples.sample_vitals)
    = Some [ {| row_label := "Age"; row_value := Num 0; row_unit := " years" |};
             {| row_label := "Gender"; row_value := Str "Female"; row_unit := "" |} ] /\
  vital_rows PanelSamples.sample_meta (Some PanelSamples.sample_vitals_unknown)
    = None.
Proof.
  split.
  - vm_compute. reflexivity.
  - apply (proj1 (vital_rows_present PanelSamples.sample_meta
                    (Some PanelSamples.sample_vitals_unknown))).
    exists "height_cm". split; [right; right; left; reflexivity|].
    split; vm_compute; reflexivity.
Defined.

(** Four features, two of them of rank 99, come out as age, gender, BMI,
    glucose. *)
Lemma feature_panel_ordered_witness :
  feature_panel PanelSamples.sample_meta (Some PanelSamples.sample_features)
  = Some [ {| row_label := "Age"; row_value := Num 40; row_unit := " years" |};
           {| row_label := "Gender"; row_value := Num 1; row_unit := "" |};
           {| row_label := "BMI"; row_value := Num 31; row_unit := "" |};
           {| row_label := "glucose"; row_value := Num 6; row_unit := "" |} ].
Proof.
  destruct (feature_panel_ordered PanelSamples.sample_meta
              (Some PanelSamples.sample_features)) as (_ & H & _).
  destruct (H PanelSamples.sample_features eq_refl) as [E _]; [discriminate|].
  rewrite E. vm_compute. reflexivity.
Defined.

End PanelExamples.

(* ===================================================================== *)
(** * Handlers run one after another                                      *)
(* ===================================================================== *)

Section VaultFacts.
Import Js Api DoctorWorkspace PanelVocabulary.
Variable Rx : Type.





End VaultFacts.

Section AnalysisStateFacts.
Import Js Receptionist ReceptionistPanels.
Variable Envelope : Type.


End AnalysisStateFacts.

Section HomeStateFacts.
Import Home HomeHandlers.
Variable Envelope : Type.

(** In the upload component of the home page, after any sequence of file
    choices, resets and uploads, each run to its end, a result is on screen
    only together with a chosen file and no error message; and a failed
    upload always leaves the one failure message and no result. *)
Theorem home_result_excludes_error (events : list (Event Envelope)) :
  let st := fold_left (handle Envelope) events (initial Envelope) in
  loading _ st = false /\
  (result _ st <> None -> error _ st = None /\ file_selected _ st = true) /\
  (file_selected _ st = true ->
     result _ (upload _ st None) = None /\
     error _ (upload _ st None) = Some failure_message).
Proof.
  cbv zeta.
  assert (Hfail : forall st : State Envelope, file_selected _ st = true ->
            result _ (upload _ st None) = None /\
            error _ (upload _ st None) = Some failure_message)
    by (intros st Hf; unfold upload; rewrite Hf; split; reflexivity).
  assert (H : loading _ (initial Envelope) = false /\
              (result _ (initial Envelope) <> None ->
               error _ (initial Envelope) = None /\
               file_selected _ (initial Envelope) = true))
    by (split; [reflexivity|intros H; contradiction H; reflexivity]).
  enough (Hinv : loading _ (fold_left (handle Envelope) events (initial Envelope)) = false /\
                 (result _ (fold_left (handle Envelope) events (initial Envelope)) <> None ->
                  error _ (fold_left (handle Envelope) events (initial Envelope)) = None /\
                  file_selected _ (fold_left (handle Envelope) events (initial Envelope)) = true)).
  { destruct Hinv as [Hl Hr]. split; [exact Hl|]. split; [exact Hr|apply Hfail]. }
  revert H. generalize (initial Envelope).
  induction events as [|e events IH]; intros st H; [exact H|].
  apply IH. destruct H as [Hl Hr].
  destruct e as [chosen| |res]; cbn [handle].
  - unfold handleFileChange. destruct chosen; [|split; assumption].
    split; [exact Hl|]. intros H. contradiction H. reflexivity.
  - split; [exact Hl|]. intros H. contradiction H. reflexivity.
  - unfold upload. destruct (file_selected _ st) eqn:Ef; cbn [negb];
      [|split; [exact Hl|rewrite Ef; exact Hr]].
    destruct res; split; cbn; try reflexivity; try (intros _; split; reflexivity).
    intros H. contradiction H. reflexivity.
Qed.

End HomeStateFacts.

Section AdminFacts.
Import Admin.
Context {Id : Type} `{EqDecision Id}.
Variable Stats : Type.

Lemma filter_sublist {A : Type} (f : A -> bool) (l : list A) :
  List.filter f l `sublist_of` l.
Proof.
  induction l as [|x l IH]; simpl; [constructor|].
  destruct (f x); [apply sublist_skip, IH|apply sublist_cons, IH].
Qed.

(** [handleApproval] in the admin portal.  When the request fails, nothing
    changes.  When it goes through, the queue of that kind of account loses
    exactly the users with that identifier, the others staying in their
    order; the two other queues are untouched; and approving and rejecting
    leave the same queues. *)
Theorem handleApproval_removes (st : State Stats) (userId : Id) (r : Role)
    (approve : bool) (o : ApprovalOutcome Stats) :
  (o = PostFailed _ -> handleApproval _ st userId r approve o = st) /\
  (forall u,
     o <> PostFailed _ ->
     (In u (queue (pending _ (handleApproval _ st userId r approve o)) r) <->
      In u (queue (pending _ st) r) /\ id u <> userId)) /\
  queue (pending _ (handleApproval _ st userId r approve o)) r
    `sublist_of` queue (pending _ st) r /\
  (forall r', r' <> r ->
     queue (pending _ (handleApproval _ st userId r approve o)) r'
     = queue (pending _ st) r') /\
  handleApproval _ st userId r (negb approve) o
    = handleApproval _ st userId r approve o.
Proof.
  assert (Hq : queue (remove_user (pending _ st) r userId) r
               = List.filter (fun u => negb (bool_decide (id u = userId)))
                   (queue (pending _ st) r))
    by (destruct r; reflexivity).
  split; [intros ->; reflexivity|]. split; [|split; [|split; [|reflexivity]]].
  - intros u Ho. destruct o as [|refreshed]; [contradiction|].
    cbn [handleApproval pending]. rewrite Hq, filter_In, negb_true_iff,
      bool_decide_eq_false. reflexivity.
  - destruct o as [|refreshed]; [reflexivity|].
    cbn [handleApproval pending]. rewrite Hq. apply filter_sublist.
  - intros r' Hr. destruct o as [|refreshed]; [reflexivity|].
    cbn [handleApproval pending]. destruct r, r'; try contradiction; reflexivity.
Qed.

End AdminFacts.

Section GridRenderFacts.
Import Js Labels ResultGrid.

(** The result grid of the upload component and of the receptionist portal
    breaks the render exactly when the envelope lacks one of its four
    disease slots: the guard of a card reads the slot with [?.], the card
    itself does not. *)
Theorem grid_breaks_iff_slot_missing (ds : Diseases) :
  grid ds = None <-> exists d : Disease, slot_of d ds = None.
Proof.
  split.
  - intros Hg.
    destruct (slot_obesity ds) as [so|] eqn:Ho; [|exists obesity; exact Ho].
    destruct (slot_diabetes ds) as [sd|] eqn:Hd; [|exists diabetes; exact Hd].
    destruct (slot_liver ds) as [sl|] eqn:Hl; [|exists liver; exact Hl].
    destruct (slot_hypertension ds) as [sh|] eqn:Hh;
      [|exists hypertension; exact Hh].
    rewrite (grid_present ds so sd sl sh Ho Hd Hl Hh) in Hg. discriminate.
  - intros [d Hd]. exact (grid_absent_slot ds d Hd).
Qed.

End GridRenderFacts.
